(** * RLHF training notebook (main.ipynb): shallow embedding and properties

    The notebook drives a PPO fine-tuning loop over third-party libraries
    (datasets, transformers, trl, torch).  The code that belongs to the
    notebook itself is embedded as executable definitions:

    - [build_dataset] with its length filter and its [tokenize] closure,
    - [collator],
    - the body of the training loop ([train_batch], [training_loop]),
    - the evaluation cell ([evaluate]).

    Library calls (tokenizer, generation, sentiment pipeline, PPO step,
    random choice) are parameters of the development; exceptions are values
    of [result] and the mutable notebook state is threaded explicitly. *)

From Stdlib Require Import ZArith String Ascii PrimFloat.
From stdpp Require Import gmap strings list list_numbers.

Local Open Scope Z_scope.
Set Default Proof Using "Type".

(** ** Python values and exceptions *)

Inductive exn :=
  | IndexError
  | KeyError
  | TypeError
  | ValueError
  | LibraryError (msg : string).

Inductive result (A : Type) :=
  | Ok (a : A)
  | Raise (e : exn).
Arguments Ok {A} a.
Arguments Raise {A} e.

Definition is_Ok {A} (r : result A) : bool :=
  match r with Ok _ => true | Raise _ => false end.

#[global] Instance result_ret : MRet result := λ A, Ok.
#[global] Instance result_bind : MBind result :=
  λ A B f m, match m with Ok a => f a | Raise e => Raise e end.

(** A torch tensor of token ids as the notebook meets it: zero- or
    one-dimensional.  [generate] returns a [1 x n] tensor, given here by its
    only row. *)
Inductive tensor :=
  | Scalar (x : Z)
  | Vector (xs : list Z).

(** A Python value held in a dataset row, a batch column or a pipeline
    output: text (in its UTF-8 encoding, see [py_len]), integer, float, or a
    sequence of token ids. *)
Inductive value :=
  | VStr (s : string)
  | VInt (n : Z)
  | VFloat (x : float)
  | VIds (ids : list Z).

(** [d[key]] on a dict. *)
Definition getitem {V} (d : gmap string V) (key : string) : result V :=
  match d !! key with
  | Some v => Ok v
  | None => Raise KeyError
  end.

(** [l[i]] on a list, for a non-negative index. *)
Definition list_getitem {A} (l : list A) (i : nat) : result A :=
  match l !! i with
  | Some x => Ok x
  | None => Raise IndexError
  end.

(** [xs[start:]] with Python's treatment of negative and out-of-range
    bounds. *)
Definition slice_from {A} (start : Z) (xs : list A) : list A :=
  let n := Z.of_nat (length xs) in
  let s := if start <? 0 then Z.max (start + n) 0 else Z.min start n in
  drop (Z.to_nat s) xs.

(** [xs[:stop]]. *)
Definition slice_to {A} (stop : Z) (xs : list A) : list A :=
  let n := Z.of_nat (length xs) in
  let e := if stop <? 0 then Z.max (stop + n) 0 else Z.min stop n in
  take (Z.to_nat e) xs.

(** [t.squeeze()]: every dimension of size one is removed.  On the
    [1 x n] output of [generate] this leaves a vector, or a zero-dimensional
    tensor when [n] is 1. *)
Definition squeeze_row (row : list Z) : tensor :=
  match row with
  | [x] => Scalar x
  | _ => Vector row
  end.

Definition squeeze (t : tensor) : tensor :=
  match t with
  | Scalar x => Scalar x
  | Vector xs => squeeze_row xs
  end.

(** [t[start:]]: slicing a zero-dimensional tensor is an IndexError. *)
Definition tensor_slice_from (start : Z) (t : tensor) : result tensor :=
  match t with
  | Scalar _ => Raise IndexError
  | Vector xs => Ok (Vector (slice_from start xs))
  end.

(** Number of token ids held by a tensor. *)
Definition numel (t : tensor) : nat :=
  match t with
  | Scalar _ => 1%nat
  | Vector xs => length xs
  end.

(** ** Cell 4: the batch collator

    [[
    def collator(data):
        return dict((key, [d[key] for d in data]) for key in data[0])
    ]]

    Iterating a dict yields its keys; each key is paired with the column
    read off every record, in the order of [data].  Indexing the empty list
    and a missing key raise.  A dict is a finite map here: the order in which
    it lists its keys is not kept, and nothing below depends on it. *)
Definition column {V} (data : list (gmap string V)) (key : string)
  : result (list V) :=
  mapM (λ d, getitem d key) data.

Definition collator {V} (data : list (gmap string V))
  : result (gmap string (list V)) :=
  match data with
  | [] => Raise IndexError
  | d0 :: _ =>
      items ← mapM (λ key, vs ← column data key; mret (key, vs))
                   (elements (dom d0));
      mret (list_to_map items)
  end.

(** The [i]-th row of a batch: the [i]-th entry of every column that has
    one. *)
Definition batch_row {V} (b : gmap string (list V)) (i : nat) : gmap string V :=
  omap (λ vs, vs !! i) b.

(** ** Notebook state: a state monad with exceptions

    A computation reads and updates the notebook state [W] and either
    returns a value or raises; the state reached when an exception is raised
    is kept, as after an uncaught Python exception. *)
Definition M (W A : Type) : Type := W → result A * W.

Definition ret {W A} (a : A) : M W A := λ w, (Ok a, w).

Definition bind {W A B} (m : M W A) (k : A → M W B) : M W B :=
  λ w, match m w with
       | (Ok a, w') => k a w'
       | (Raise e, w') => (Raise e, w')
       end.

Definition lift {W A} (r : result A) : M W A := λ w, (r, w).

Notation "x <- m ;; k" := (bind m (λ x, k))
  (at level 100, m at next level, right associativity,
   format "'[v' x  <-  m  ;;  '/' k ']'").
Notation "m ;;; k" := (bind m (λ _, k))
  (at level 100, right associativity).

(** A [for] loop, or a list comprehension, whose body has effects. *)
Fixpoint for_each {W A B} (f : A → M W B) (l : list A) : M W (list B) :=
  match l with
  | [] => ret []
  | x :: l' => y <- f x;; ys <- for_each f l';; ret (y :: ys)
  end.

(** [ds.filter(p)] with a predicate that may raise. *)
Fixpoint filterM {A} (p : A → result bool) (l : list A) : result (list A) :=
  match l with
  | [] => Ok []
  | x :: l' =>
      b ← p x;
      rest ← filterM p l';
      mret (if b : bool then x :: rest else rest)
  end.

(** A Python [str] is a sequence of code points.  [VStr] holds its UTF-8
    encoding, one [ascii] per byte (the form in which a dataset stores its
    text columns): a code point is one lead byte followed by up to three
    continuation bytes, the bytes [10xxxxxx].  Concatenation and equality of
    texts are concatenation and equality of their encodings. *)
Definition is_continuation_byte (c : ascii) : bool :=
  Z.land (Z.of_N (N_of_ascii c)) 192 =? 128.

(** The number of code points of the text encoded by [s]: its bytes other
    than continuation bytes. *)
Fixpoint code_points (s : string) : nat :=
  match s with
  | EmptyString => 0%nat
  | String c s' =>
      if is_continuation_byte c then code_points s' else S (code_points s')
  end.

(** [len(v)]: the number of code points of a text, the number of elements
    of a sequence. *)
Definition py_len (v : value) : result Z :=
  match v with
  | VStr s => Ok (Z.of_nat (code_points s))
  | VIds ids => Ok (Z.of_nat (length ids))
  | VInt _ | VFloat _ => Raise TypeError
  end.

(** [len(v) > 200] for a value whose length is defined. *)
Definition long_text (v : value) : bool :=
  match py_len v with
  | Ok n => 200 <? n
  | Raise _ => false
  end.

(** [a + b]. *)
Definition py_add (a b : value) : result value :=
  match a, b with
  | VStr s, VStr t => Ok (VStr (s +:+ t))
  | VIds s, VIds t => Ok (VIds (s ++ t))
  | VInt m, VInt n => Ok (VInt (m + n))
  | VFloat x, VFloat y => Ok (VFloat (x + y)%float)
  | _, _ => Raise TypeError
  end.

(** [[q + r for q, r in zip(queries, responses)]]. *)
Definition concat_texts (queries responses : list value) : result (list value) :=
  mapM (λ qr, py_add qr.1 qr.2) (zip queries responses).

(** [output[1]["score"]]. *)
Definition positive_score (output : list (gmap string value)) : result value :=
  entry ← list_getitem output 1;
  getitem entry "score".

(** [s] is the ["score"] field of the element at index 1 of [output]. *)
Definition score_at_index_1 (output : list (gmap string value)) (s : value)
  : Prop :=
  ∃ entry, output !! 1%nat = Some entry ∧ entry !! "score" = Some s.

(** [torch.tensor(x)]: numbers and sequences of numbers become tensors
    holding the same data (the tensor is given by the value it wraps); text is
    rejected with "ValueError: too many dimensions 'str'". *)
Definition torch_tensor (v : value) : result value :=
  match v with
  | VStr _ => Raise ValueError
  | VInt _ | VFloat _ | VIds _ => Ok v
  end.

(** [torch.tensor(output[1]["score"])]. *)
Definition reward_of (output : list (gmap string value)) : result value :=
  s ← positive_score output;
  torch_tensor s.

(** [LengthSampler(min_value, max_value)]: [self.values =
    list(range(min_value, max_value))]. *)
Definition LengthSampler (min_value max_value : Z) : list Z :=
  seqZ min_value (max_value - min_value).

Definition output_min_length : Z := 4.
Definition output_max_length : Z := 16.
Definition bs : nat := 16.

(** ** The state the notebook's cells share

    Model and optimizer parameters ([Weights]), random-generator state
    ([Rng]) and training statistics ([Stats]) are opaque to the notebook. *)
Section State.

Context {Weights Rng Stats : Type}.

Record world := World {
  rng : Rng;
  (** weights of [model], the policy held by [ppo_trainer] *)
  model : Weights;
  (** weights of [ref_model] *)
  ref_model : Weights;
  (** [generation_kwargs["max_new_tokens"]] *)
  max_new_tokens : option Z;
  (** arguments of the calls to [ppo_trainer.step] made so far *)
  steps : list (list value * list tensor * list value);
  (** arguments of the calls to [ppo_trainer.log_stats] made so far *)
  logged : list (Stats * gmap string (list value) * list value);
  (** output format of [dataset], the object that cell 4 builds and hands
      to [ppo_trainer]: "torch" as [build_dataset] leaves it *)
  dataset_format : string
}.

Definition set_rng (g : Rng) (w : world) : world :=
  World g (model w) (ref_model w) (max_new_tokens w) (steps w) (logged w)
        (dataset_format w).
Definition set_model (θ : Weights) (w : world) : world :=
  World (rng w) θ (ref_model w) (max_new_tokens w) (steps w) (logged w)
        (dataset_format w).
Definition set_max_new_tokens (n : Z) (w : world) : world :=
  World (rng w) (model w) (ref_model w) (Some n) (steps w) (logged w)
        (dataset_format w).
Definition push_step (c : list value * list tensor * list value) (w : world)
  : world :=
  World (rng w) (model w) (ref_model w) (max_new_tokens w) (steps w ++ [c])
        (logged w) (dataset_format w).
Definition push_log (c : Stats * gmap string (list value) * list value)
    (w : world) : world :=
  World (rng w) (model w) (ref_model w) (max_new_tokens w) (steps w)
        (logged w ++ [c]) (dataset_format w).
Definition set_dataset_format (type : string) (w : world) : world :=
  World (rng w) (model w) (ref_model w) (max_new_tokens w) (steps w)
        (logged w) type.

End State.

(** ** A small instance of the libraries

    Executable stand-ins for the library calls, used to run the notebook on
    concrete inputs: a byte-level tokenizer, a language model that emits
    [θ] copies of one token and then the end-of-sequence token unless the cap
    [max_new_tokens] is reached first, a two-label classifier, and a counter as
    random generator. *)
Module Toy.

Definition eos : Z := 46.

Definition encode (v : value) : result (list Z) :=
  match v with
  | VStr s => Ok (map (λ c, Z.of_nat (nat_of_ascii c)) (list_ascii_of_string s))
  | _ => Raise TypeError
  end.

Definition decode_ids (ids : list Z) : string :=
  string_of_list_ascii (map (λ z, ascii_of_nat (Z.to_nat z)) ids).

Definition decode (t : tensor) : result string :=
  match t with
  | Scalar x => Ok (decode_ids [x])
  | Vector xs => Ok (decode_ids xs)
  end.

Definition choice (values : list Z) (g : nat) : Z * nat :=
  (nth (g mod length values)%nat values 0, S g).

Definition generate (θ : nat) (query : value) (max_new : Z) (g : nat)
  : result (list Z) * nat :=
  match query with
  | VIds q =>
      let cap := Z.to_nat max_new in
      (Ok (q ++ repeat 97 (θ `min` cap) ++ (if (θ <? cap)%nat then [eos] else [])),
       S g)
  | _ => (Raise TypeError, g)
  end.

Definition classify (text : value) : list (gmap string value) :=
  [ {[ "label" := VStr "NEGATIVE"; "score" := VFloat (-1.5)%float ]};
    {[ "label" := VStr "POSITIVE"; "score" := VFloat 2.5%float ]} ].

Definition pipe (texts : list value) : result (list (list (gmap string value))) :=
  Ok (map classify texts).

Definition step (queries : list value) (responses : list tensor)
    (rewards : list value) (θ g : nat) : result nat * nat * nat :=
  (Ok (length queries), S θ, g).

Definition sample (rows : list (gmap string value)) (n g : nat)
  : result (list (gmap string value)) * nat :=
  if (length rows <? n)%nat then (Raise ValueError, g) else (Ok (take n rows), S g).

Definition review (n : nat) : gmap string value :=
  {[ "text" := VStr (string_of_list_ascii (repeat "a"%char n)); "label" := VInt 1 ]}.

Definition corpus : list (gmap string value) :=
  [review 50; review 250; review 300; review 10; review 220; review 200].

Definition load (name : string) : result (list (gmap string value)) :=
  if decide (name = "imdb") then Ok corpus else Raise (LibraryError "FileNotFoundError").

Definition example (ids : list Z) : gmap string value :=
  {[ "input_ids" := VIds ids; "query" := VStr (decode_ids ids) ]}.

(** A fresh notebook whose policy emits the end-of-sequence token at once,
    while the reference model would go on for twenty tokens; and one whose
    policy goes on as well. *)
Definition world0 : @world nat nat nat :=
  World 0%nat 0%nat 20%nat None [] [] "torch".
Definition world_fluent : @world nat nat nat :=
  World 0%nat 20%nat 20%nat None [] [] "torch".

(** A chunk of two rows as the dataloader hands it to the collator, and the
    batch it collates to. *)
Definition chunk : list (gmap string value) :=
  [example [104; 105]; example [104; 105; 106]].

Definition batch : gmap string (list value) :=
  {[ "input_ids" := [VIds [104; 105]; VIds [104; 105; 106]];
     "query" := [VStr "hi"; VStr "hij"] ]}.

(** A chunk whose second row holds text where token ids belong, and the
    batch it collates to: [generate] raises on the second query. *)
Definition bad_chunk : list (gmap string value) :=
  [example [104; 105];
   {[ "input_ids" := VStr "oops"; "query" := VStr "oops" ]}].

Definition bad_batch : gmap string (list value) :=
  {[ "input_ids" := [VIds [104; 105]; VStr "oops"];
     "query" := [VStr "hi"; VStr "oops"] ]}.

(** The states reached on [bad_batch] from [world0]: after the first query,
    and when the second one makes [generate] raise. *)
Definition world_mid : @world nat nat nat :=
  World 2%nat 0%nat 20%nat (Some 4) [] [] "torch".
Definition world_aborted : @world nat nat nat :=
  World 3%nat 0%nat 20%nat (Some 6) [] [] "torch".

(** Sixteen rows to evaluate on. *)
Definition dataset : list (gmap string value) :=
  map (λ i, example [104; 105 + Z.of_nat i]) (seq 0 16).

(** The state reached from [world0] once [chunk] has been trained on, and
    the state in which training then stops on [bad_chunk]. *)
Definition world1 : @world nat nat nat :=
  World 4%nat 1%nat 20%nat (Some 6)
    [([VIds [104; 105]; VIds [104; 105; 106]],
      [Vector [104; 105; 46]; Vector [104; 105; 106; 46]],
      [VFloat 2.5%float; VFloat 2.5%float])]
    [(2%nat, <["response" := [VStr "hi."; VStr "hij."]]> batch,
      [VFloat 2.5%float; VFloat 2.5%float])]
    "torch".
Definition world_stopped : @world nat nat nat :=
  World 7%nat 1%nat 20%nat (Some 10) (steps world1) (logged world1) "torch".

(** A text of 196 characters in 208 bytes: 184 letters, then twelve times
    the letter e with an acute accent, which UTF-8 encodes by the two bytes
    195 and 169. *)
Definition accented : string :=
  string_of_list_ascii
    (repeat "a"%char 184 ++
     mjoin (repeat [ascii_of_nat 195; ascii_of_nat 169] 12)).

(** A corpus of short reviews only, and a corpus without a "text"
    column. *)
Definition load_short (name : string) : result (list (gmap string value)) :=
  Ok [review 50; review 10].

Definition load_untitled (name : string)
  : result (list (gmap string value)) :=
  Ok [{[ "label" := VInt 1 ]}].

End Toy.

(** ** The notebook over its libraries *)

Section Notebook.

Context {Weights Rng Stats : Type}.

(** A dataset row and a collated batch. *)
Abbreviation row := (gmap string value).
Abbreviation batch := (gmap string (list value)).

(** [load_dataset(dataset_name, split="train")]. *)
Variable load_dataset : string → result (list row).
(** [np.random.choice(values)] on a non-empty list. *)
Variable np_random_choice : list Z → Rng → Z * Rng.
(** [tokenizer.encode(text)] and [tokenizer.decode(ids)]. *)
Variable tokenizer_encode : value → result (list Z).
Variable tokenizer_decode : tensor → result string.
(** [model.generate(input_ids=query.unsqueeze(0), max_new_tokens=n,
    min_length=-1, top_k=0.0, top_p=1.0, do_sample=True,
    pad_token_id=eos)] for the model with the given weights: the only row
    of the [1 x n] output.  [ppo_trainer.generate(query, **kwargs)]
    forwards to it with the policy's weights. *)
Variable generate : Weights → value → Z → Rng → result (list Z) * Rng.
(** [sentiment_pipe(texts, return_all_scores=True,
    function_to_apply="none", batch_size=16)]. *)
Variable sentiment_pipe : list value → result (list (list row)).
(** [ppo_trainer.step(queries, responses, rewards)] on the trainer's
    parameters. *)
Variable ppo_step :
  list value → list tensor → list value → Weights → Rng →
  result Stats * Weights * Rng.
(** [dataset[:].sample(n)] of pandas. *)
Variable df_sample : list row → nat → Rng → result (list row) * Rng.

Abbreviation NB := (M (@world Weights Rng Stats)).

(** [LengthSampler.__call__]: [np.random.choice(self.values)], which
    rejects an empty list. *)
Definition sample_length (values : list Z) : NB Z :=
  λ w, match values with
       | [] => (Raise ValueError, w)
       | _ => let (v, g) := np_random_choice values (rng w) in
              (Ok v, set_rng g w)
       end.

(** *** Cell 3: [build_dataset] *)

(** [ds.rename_columns({old: new})] on one row, for two different names.
    A column [old] that the dataset does not have is rejected with a
    ValueError.  The name [new] is not checked against the columns already
    there: when it is taken the table ends up with two columns of that name
    and the builder fails with a KeyError once it reads the table, so that no
    row comes out of it. *)
Definition rename_column (old new : string) (r : row) : result row :=
  match r !! old with
  | None => Raise ValueError
  | Some v =>
      match r !! new with
      | None => Ok (<[new := v]> (delete old r))
      | Some _ => Raise KeyError
      end
  end.

(** [lambda x: len(x["review"]) > 200]. *)
Definition long_review (x : row) : result bool :=
  review ← getitem x "review";
  n ← py_len review;
  mret (200 <? n).

(** The closure [tokenize] over [tokenizer] and [input_size]. *)
Definition tokenize (input_size : list Z) (sample : row) : NB row :=
  review <- lift (getitem sample "review");;
  ids <- lift (tokenizer_encode review);;
  n <- sample_length input_size;;
  let sample := <["input_ids" := VIds (slice_to n ids)]> sample in
  input_ids <- lift (getitem sample "input_ids");;
  query <- lift (match input_ids with
                 | VIds l => tokenizer_decode (Vector l)
                 | _ => Raise TypeError
                 end);;
  ret (<["query" := VStr query]> sample).

(** [build_dataset(config, dataset_name, input_min_text_length,
    input_max_text_length)]; the notebook calls it with the defaults
    ["imdb"], 2 and 8.  [ds.set_format(type="torch")] changes how rows are
    presented, not what they hold. *)
Definition build_dataset (dataset_name : string)
    (input_min_text_length input_max_text_length : Z) : NB (list row) :=
  ds <- lift (load_dataset dataset_name);;
  ds <- lift (mapM (rename_column "text" "review") ds);;
  ds <- lift (filterM long_review ds);;
  let input_size := LengthSampler input_min_text_length input_max_text_length in
  ds <- for_each (tokenize input_size) ds;;
  ret ds.

(** *** Cell 13: the training loop *)

Definition output_length_sampler : NB Z :=
  sample_length (LengthSampler output_min_length output_max_length).

Definition ppo_trainer_generate (query : value) (n : Z) : NB (list Z) :=
  λ w, let (r, g) := generate (model w) query n (rng w) in (r, set_rng g w).

Definition ppo_trainer_step (queries : list value) (responses : list tensor)
    (rewards : list value) : NB Stats :=
  λ w, let '(r, θ, g) := ppo_step queries responses rewards (model w) (rng w) in
       (r, push_step (queries, responses, rewards) (set_model θ (set_rng g w))).

Definition log_stats (stats : Stats) (b : batch) (rewards : list value)
  : NB unit :=
  λ w, (Ok tt, push_log (stats, b, rewards) w).

(** The body of [for query in query_tensors]: the drawn length is stored in
    [generation_kwargs] and passed on with [**generation_kwargs]. *)
Definition respond (query : value) : NB tensor :=
  gen_len <- output_length_sampler;;
  (λ w, (Ok tt, set_max_new_tokens gen_len w));;;
  response <- ppo_trainer_generate query gen_len;;
  lift (tensor_slice_from (- gen_len) (squeeze_row response)).

(** [[tokenizer.decode(r.squeeze()) for r in response_tensors]]. *)
Definition decode_responses (response_tensors : list tensor)
  : result (list string) :=
  mapM (λ r, tokenizer_decode (squeeze r)) response_tensors.

(** The body of [for epoch, batch in enumerate(ppo_trainer.dataloader)]. *)
Definition train_batch (b : batch) : NB unit :=
  query_tensors <- lift (getitem b "input_ids");;
  response_tensors <- for_each respond query_tensors;;
  decoded <- lift (decode_responses response_tensors);;
  let b := <["response" := map VStr decoded]> b in
  queries <- lift (getitem b "query");;
  responses <- lift (getitem b "response");;
  texts <- lift (concat_texts queries responses);;
  pipe_outputs <- lift (sentiment_pipe texts);;
  rewards <- lift (mapM reward_of pipe_outputs);;
  stats <- ppo_trainer_step query_tensors response_tensors rewards;;
  log_stats stats b rewards.

(** The dataloader hands [collator] one chunk of rows per iteration. *)
Definition training_loop (dataloader : list (list row)) : NB (list unit) :=
  for_each (λ data, b <- lift (collator data);; train_batch b) dataloader.

(** *** Cell 15: the evaluation cell *)

(** [m.generate(torch.tensor(query).unsqueeze(dim=0).to(device),
    max_new_tokens=gen_len, **gen_kwargs).squeeze()[-gen_len:]] for the
    model with weights [θ]. *)
Definition generate_trimmed (θ : Weights) (query : value) (gen_len : Z)
  : NB tensor :=
  t <- lift (torch_tensor query);;
  output <- (λ w, let (r, g) := generate θ t gen_len (rng w) in
                  (r, set_rng g w));;
  lift (tensor_slice_from (- gen_len) (squeeze_row output)).

(** The body of [for i in range(bs)]; the pair returned is what the
    iteration appends to [response_tensors_ref] and to [response_tensors]. *)
Definition evaluate_example (query_tensors : list value) (i : nat)
  : NB (tensor * tensor) :=
  gen_len <- output_length_sampler;;
  q <- lift (list_getitem query_tensors i);;
  θ_ref <- (λ w, (Ok (ref_model w), w));;
  output_ref <- generate_trimmed θ_ref q gen_len;;
  q <- lift (list_getitem query_tensors i);;
  θ <- (λ w, (Ok (model w), w));;
  output <- generate_trimmed θ q gen_len;;
  ret (output_ref, output).

(** [[tokenizer.decode(tensors[i]) for i in range(bs)]]. *)
Definition decode_all (tensors : list tensor) : result (list string) :=
  mapM (λ i, r ← list_getitem tensors i; tokenizer_decode r) (seq 0 bs).

(** [[output[1]["score"] for output in sentiment_pipe(texts, **sent_kwargs)]]. *)
Definition score_texts (texts : list value) : result (list value) :=
  pipe_outputs ← sentiment_pipe texts;
  mapM positive_score pipe_outputs.

(** The cell up to [game_data], from which [pd.DataFrame(game_data)] is
    built.  [dataset.set_format("pandas")] changes in place the dataset that
    [ppo_trainer] holds as well; [dataset[:]] is then a data frame of all its
    rows. *)
Definition evaluate (dataset : list row) : NB batch :=
  let game_data : batch := ∅ in
  (λ w, (Ok tt, set_dataset_format "pandas" w));;;
  df_batch <- (λ w, let (r, g) := df_sample dataset bs (rng w) in
                    (r, set_rng g w));;
  query <- lift (column df_batch "query");;
  let game_data := <["query" := query]> game_data in
  query_tensors <- lift (column df_batch "input_ids");;
  pairs <- for_each (evaluate_example query_tensors) (seq 0 bs);;
  let response_tensors_ref := map fst pairs in
  let response_tensors := map snd pairs in
  before <- lift (decode_all response_tensors_ref);;
  let game_data := <["response (before)" := map VStr before]> game_data in
  after <- lift (decode_all response_tensors);;
  let game_data := <["response (after)" := map VStr after]> game_data in
  queries <- lift (getitem game_data "query");;
  responses <- lift (getitem game_data "response (before)");;
  texts <- lift (concat_texts queries responses);;
  rewards <- lift (score_texts texts);;
  let game_data := <["rewards (before)" := rewards]> game_data in
  queries <- lift (getitem game_data "query");;
  responses <- lift (getitem game_data "response (after)");;
  texts <- lift (concat_texts queries responses);;
  rewards <- lift (score_texts texts);;
  let game_data := <["rewards (after)" := rewards]> game_data in
  ret game_data.

(** ** Properties

    *** The exception monad *)

Lemma mapM_Ok_Forall2 {A B} (f : A → result B) l k :
  mapM f l = Ok k ↔ Forall2 (λ x y, f x = Ok y) l k.
Proof.
  revert k. induction l as [|x l IH]; intros k; simpl.
  - split.
    + intros [= <-]. constructor.
    + intros H. by inversion H.
  - split.
    + destruct (f x) as [y|e] eqn:Hx; simpl; [|done].
      destruct (mapM f l) as [k'|e] eqn:Hl; simpl; [|done].
      intros [= <-]. constructor; [done|]. by apply IH.
    + intros H. inversion H as [|? y ? k' Hx Hl]; subst.
      rewrite Hx. simpl. apply IH in Hl. rewrite Hl. done.
Qed.

Lemma mapM_Ok_length {A B} (f : A → result B) l k :
  mapM f l = Ok k → length k = length l.
Proof. intros H. apply mapM_Ok_Forall2 in H. by apply Forall2_length in H. Qed.

Lemma mapM_total {A B} (f : A → result B) l :
  (∀ x, x ∈ l → ∃ y, f x = Ok y) → ∃ k, mapM f l = Ok k.
Proof.
  induction l as [|x l IH]; intros H; simpl.
  - by eexists.
  - destruct (H x) as [y Hy]; [left|].
    destruct IH as [k Hk]; [intros; apply H; by right|].
    rewrite Hy. simpl. rewrite Hk. by eexists.
Qed.

Lemma mapM_Raise {A B} (f : A → result B) l x e :
  x ∈ l → f x = Raise e → (∀ y e', f y = Raise e' → e' = e) →
  mapM f l = Raise e.
Proof.
  intros Hin Hx Huniq. induction l as [|y l IH]; [by inversion Hin|].
  simpl. destruct (f y) as [b|e'] eqn:Hy; simpl.
  - assert (x ∈ l) as Hl.
    { inversion Hin; subst; [congruence|done]. }
    rewrite (IH Hl). done.
  - f_equal. by eapply Huniq.
Qed.

Lemma mapM_Raise_inv {A B} (f : A → result B) l e :
  mapM f l = Raise e → ∃ x, x ∈ l ∧ f x = Raise e.
Proof.
  induction l as [|x l IH]; simpl; [done|].
  destruct (f x) as [y|e'] eqn:Hx; simpl.
  - destruct (mapM f l) as [k|e'] eqn:Hl; simpl; [done|].
    intros [= ->]. destruct IH as (x' & ? & ?); [done|].
    exists x'. split; [by right|done].
  - intros [= ->]. exists x. split; [by left|done].
Qed.

(** *** Columns of a list of records *)

Lemma column_Ok {V} (data : list (gmap string V)) key vs :
  column data key = Ok vs ↔ Forall2 (λ d v, d !! key = Some v) data vs.
Proof.
  unfold column. rewrite mapM_Ok_Forall2.
  split; intros H; (eapply Forall2_impl; [exact H|]); intros d v;
    unfold getitem; destruct (d !! key); congruence.
Qed.

(** *** The state monad *)

Lemma result_bind_Ok {A B} (m : result A) (f : A → result B) b :
  m ≫= f = Ok b ↔ ∃ a, m = Ok a ∧ f a = Ok b.
Proof.
  destruct m as [a|e]; simpl.
  - split; [intros ?; by exists a|]. by intros (? & [= <-] & ?).
  - split; [done|]. by intros (? & ? & _).
Qed.

Lemma bind_Ok {W A B} (m : M W A) (k : A → M W B) w b w' :
  bind m k w = (Ok b, w') ↔ ∃ a w1, m w = (Ok a, w1) ∧ k a w1 = (Ok b, w').
Proof.
  unfold bind. destruct (m w) as [[a|e] w1].
  - split; [intros ?; by exists a, w1|]. by intros (? & ? & [= <- <-] & ?).
  - split; [done|]. by intros (? & ? & ? & _).
Qed.

Lemma lift_inv {W A} (r r' : result A) (w w' : W) :
  lift r w = (r', w') ↔ r' = r ∧ w' = w.
Proof. unfold lift. split; [by intros [= <- <-]|by intros [-> ->]]. Qed.

Lemma ret_inv {W A} (a : A) (r : result A) (w w' : W) :
  ret a w = (r, w') ↔ r = Ok a ∧ w' = w.
Proof. unfold ret. split; [by intros [= <- <-]|by intros [-> ->]]. Qed.

Lemma for_each_Forall2 {W A B} (f : A → M W B) l w rs w' :
  for_each f l w = (Ok rs, w') →
  Forall2 (λ x y, ∃ w1 w2, f x w1 = (Ok y, w2)) l rs.
Proof.
  revert w rs w'. induction l as [|x l IH]; intros w rs w'; simpl.
  - intros [[= ->] _]%ret_inv. constructor.
  - intros (y & w1 & Hx & (ys & w2 & Hl & [[= ->] _]%ret_inv)%bind_Ok)%bind_Ok.
    constructor; [by eexists _, _|by eapply IH].
Qed.

(** A property of the state that every run of the body keeps, whether it
    returns or raises, is kept by the loop. *)
Lemma for_each_invariant {W A B} (I : W → Prop) (f : A → M W B) l :
  (∀ x w r w', f x w = (r, w') → I w → I w') →
  ∀ w r w', for_each f l w = (r, w') → I w → I w'.
Proof.
  intros Hf. induction l as [|x l IH]; intros w r w'; simpl.
  - by intros [_ ->]%ret_inv.
  - unfold bind at 1. destruct (f x w) as [[y|e] w1] eqn:Hx.
    + unfold bind. destruct (for_each f l w1) as [[ys|e] w2] eqn:Hl.
      * intros [_ ->]%ret_inv Hw. eauto.
      * intros [= _ <-] Hw. eauto.
    + intros [= _ <-] Hw. eauto.
Qed.

(** *** Slices *)

Lemma length_slice_from_last {A} (n : Z) (xs : list A) :
  0 < n → length (slice_from (- n) xs) = (Z.to_nat n `min` length xs)%nat.
Proof.
  intros Hn. unfold slice_from.
  destruct (Z.ltb_spec (- n) 0) as [_|?]; [|lia].
  rewrite length_drop. lia.
Qed.

Lemma elem_of_LengthSampler (lo hi : Z) v :
  v ∈ LengthSampler lo hi ↔ lo ≤ v < hi.
Proof. unfold LengthSampler. rewrite elem_of_seqZ. lia. Qed.

(** *** What the library calls are assumed to do *)

(** [np.random.choice] returns an element of the list it is given. *)
Hypothesis np_random_choice_elem :
  ∀ values g, values ≠ [] → (np_random_choice values g).1 ∈ values.

(** The pipeline returns one output per text. *)
Hypothesis sentiment_pipe_length :
  ∀ texts outputs, sentiment_pipe texts = Ok outputs →
                   length outputs = length texts.

Lemma sample_length_Ok values w v w' :
  sample_length values w = (Ok v, w') →
  v ∈ values ∧ ∃ g, np_random_choice values (rng w) = (v, g) ∧ w' = set_rng g w.
Proof using np_random_choice_elem.
  unfold sample_length. destruct values as [|v0 values]; [done|].
  pose proof (np_random_choice_elem (v0 :: values) (rng w)) as Hin.
  destruct (np_random_choice (v0 :: values) (rng w)) as [v1 g] eqn:Hc.
  intros [= <- <-]. split; [by apply Hin|eauto].
Qed.

Lemma output_length_sampler_eq w :
  output_length_sampler w =
  let (v, g) := np_random_choice
                  (LengthSampler output_min_length output_max_length) (rng w) in
  (Ok v, set_rng g w).
Proof.
  unfold output_length_sampler, sample_length.
  destruct (LengthSampler _ _) eqn:E; [by vm_compute in E|done].
Qed.

Lemma output_length_sampler_Ok w L w' :
  output_length_sampler w = (Ok L, w') →
  4 ≤ L < 16 ∧
  ∃ g, np_random_choice (LengthSampler output_min_length output_max_length)
         (rng w) = (L, g) ∧ w' = set_rng g w.
Proof using np_random_choice_elem.
  intros [Hin Hg]%sample_length_Ok. split; [|done].
  by apply elem_of_LengthSampler in Hin.
Qed.

(** *** Generation and trimming *)

Lemma tensor_slice_squeeze_row_Ok (n : Z) (row : list Z) r :
  tensor_slice_from n (squeeze_row row) = Ok r ↔
  length row ≠ 1%nat ∧ r = Vector (slice_from n row).
Proof.
  destruct row as [|x [|y row]]; simpl;
    (split; [intros ?; simplify_eq; by split|intros [? ->]; done]).
Qed.

Lemma respond_Ok query w r w' :
  respond query w = (Ok r, w') ↔
  ∃ L g row g',
    np_random_choice (LengthSampler output_min_length output_max_length)
      (rng w) = (L, g) ∧
    generate (model w) query L g = (Ok row, g') ∧
    length row ≠ 1%nat ∧
    r = Vector (slice_from (- L) row) ∧
    w' = set_rng g' (set_max_new_tokens L (set_rng g w)).
Proof.
  unfold respond, ppo_trainer_generate, bind, lift.
  rewrite output_length_sampler_eq.
  destruct (np_random_choice _ (rng w)) as [L g]; cbn.
  destruct (generate (model w) query L g) as [[row|e] g'] eqn:Hg; cbn.
  - split.
    + intros [= Hr <-]. apply tensor_slice_squeeze_row_Ok in Hr as [? ->].
      by exists L, g, row, g'.
    + intros (? & ? & ? & ? & [= <- <-] & Hg' & Hlen & -> & ->).
      rewrite Hg in Hg'. injection Hg' as <- <-.
      f_equal. by apply tensor_slice_squeeze_row_Ok.
  - split; [done|]. intros (? & ? & ? & ? & [= <- <-] & Hg' & _).
    by rewrite Hg in Hg'.
Qed.

(** C2 (as amended).  Each run of the loop body that returns a response drew
    a length [L] in [4, 16), generated with [max_new_tokens = L] and kept
    [response.squeeze()[-L:]]: the response holds [min L n] token ids, where
    [n] is the length of the generated output, hence exactly [L] if and only
    if the generated output has at least [L] token ids. *)
Theorem respond_trims_to_drawn_length query w r w' :
  respond query w = (Ok r, w') →
  ∃ L g row g',
    np_random_choice (LengthSampler output_min_length output_max_length)
      (rng w) = (L, g) ∧
    4 ≤ L < 16 ∧
    generate (model w) query L g = (Ok row, g') ∧
    r = Vector (slice_from (- L) row) ∧
    numel r = (Z.to_nat L `min` length row)%nat ∧
    (numel r = Z.to_nat L ↔ (Z.to_nat L ≤ length row)%nat).
Proof using np_random_choice_elem.
  intros Hr. pose proof Hr as (L & g & row & g' & Hc & Hg & _ & -> & _)%respond_Ok.
  assert (4 ≤ L < 16) as HL.
  { apply bind_Ok in Hr as (L' & w1 & HL' & _).
    pose proof HL' as [HL _]%output_length_sampler_Ok.
    apply sample_length_Ok in HL' as (_ & g1 & Hc' & _).
    rewrite Hc in Hc'. by injection Hc' as <- _. }
  exists L, g, row, g'. repeat split; try done; try lia.
  - simpl. apply length_slice_from_last. lia.
  - simpl. rewrite length_slice_from_last by lia. lia.
  - simpl. rewrite length_slice_from_last by lia. lia.
Qed.

Lemma generate_trimmed_Ok θ query L w r w' :
  generate_trimmed θ query L w = (Ok r, w') ↔
  ∃ row g',
    torch_tensor query = Ok query ∧
    generate θ query L (rng w) = (Ok row, g') ∧
    length row ≠ 1%nat ∧
    r = Vector (slice_from (- L) row) ∧
    w' = set_rng g' w.
Proof.
  unfold generate_trimmed, bind, lift.
  destruct query as [s|n|x|ids]; cbn;
    try (split; [done|]; by intros (? & ? & ? & _)).
  all: match goal with |- context [generate ?a ?b ?c ?d] =>
         destruct (generate a b c d) as [[row|e] g'] eqn:Hg end; cbn.
  all: split;
    [ first [ done | intros [= Hr <-];
        apply tensor_slice_squeeze_row_Ok in Hr as [? ->];
        by exists row, g' ]
    | intros (? & ? & _ & [= <- <-] & Hlen & -> & ->);
      f_equal; by apply tensor_slice_squeeze_row_Ok ].
Qed.

(** C10 (as amended).  Each iteration of the evaluation loop that returns
    drew one length [L] in [4, 16) and used it as [max_new_tokens] and as
    trim length for the reference model and for the policy alike; the two
    responses hold [min L n_ref] and [min L n] token ids, so they have the
    same number of token ids, [L], whenever both generated outputs have at
    least [L]. *)
Theorem evaluate_example_shares_gen_len query_tensors i w r_ref r w' :
  evaluate_example query_tensors i w = (Ok (r_ref, r), w') →
  ∃ q L g row_ref g1 row g2,
    query_tensors !! i = Some q ∧
    np_random_choice (LengthSampler output_min_length output_max_length)
      (rng w) = (L, g) ∧
    4 ≤ L < 16 ∧
    generate (ref_model w) q L g = (Ok row_ref, g1) ∧
    generate (model w) q L g1 = (Ok row, g2) ∧
    r_ref = Vector (slice_from (- L) row_ref) ∧
    r = Vector (slice_from (- L) row) ∧
    numel r_ref = (Z.to_nat L `min` length row_ref)%nat ∧
    numel r = (Z.to_nat L `min` length row)%nat ∧
    ((Z.to_nat L ≤ length row_ref)%nat → (Z.to_nat L ≤ length row)%nat →
     numel r_ref = Z.to_nat L ∧ numel r = Z.to_nat L).
Proof using np_random_choice_elem.
  unfold evaluate_example.
  intros (L & w1 & HL & (q & w2 & [Hq ->]%lift_inv &
    (θr & w3 & [= <- <-] & (o_ref & w4 & Href &
    (q' & w5 & [Hq' ->]%lift_inv & (θ & w6 & [= <- <-] &
    (o & w7 & Hpol & [[= <- <-] ->]%ret_inv
    )%bind_Ok)%bind_Ok)%bind_Ok)%bind_Ok)%bind_Ok)%bind_Ok)%bind_Ok.
  apply output_length_sampler_Ok in HL as (HL & g & Hc & ->).
  unfold list_getitem in Hq, Hq'.
  destruct (query_tensors !! i) as [q0|] eqn:Hi; [|done].
  injection Hq as <-. injection Hq' as <-.
  apply generate_trimmed_Ok in Href as (row_ref & g1 & _ & Hgr & _ & -> & ->).
  apply generate_trimmed_Ok in Hpol as (row & g2 & _ & Hgp & _ & -> & ->).
  simpl in *.
  exists q', L, g, row_ref, g1, row, g2.
  rewrite !length_slice_from_last by lia.
  repeat split; try done; try lia.
Qed.

(** *** The collator *)

Lemma column_Raise {V} (data : list (gmap string V)) key e :
  column data key = Raise e → e = KeyError.
Proof.
  intros (d & _ & Hd)%mapM_Raise_inv. unfold getitem in Hd.
  destruct (d !! key); congruence.
Qed.

Lemma column_missing {V} (data : list (gmap string V)) key d :
  d ∈ data → d !! key = None → column data key = Raise KeyError.
Proof.
  intros Hin Hd. unfold column. eapply mapM_Raise; [done| |].
  - unfold getitem. by rewrite Hd.
  - intros y e'. unfold getitem. destruct (y !! key); congruence.
Qed.

Lemma collator_items {V} (data : list (gmap string V)) keys items :
  mapM (λ key, vs ← column data key; mret (key, vs)) keys = Ok items →
  items.*1 = keys ∧
  ∀ key vs, (key, vs) ∈ items ↔ key ∈ keys ∧ column data key = Ok vs.
Proof.
  revert items. induction keys as [|k keys IH]; intros items; simpl.
  - intros [= <-]. split; [done|]. intros key vs. rewrite !elem_of_nil.
    split; [done|by intros [? _]].
  - intros (item & (vs0 & Hk & [= <-])%result_bind_Ok &
            (items' & Hitems & [= <-])%result_bind_Ok)%result_bind_Ok.
    destruct (IH _ Hitems) as [Hfst Hmem]. split; [simpl; by f_equal|].
    intros key vs. rewrite !elem_of_cons, Hmem. split.
    + intros [[= -> ->]|[? ?]]; (split; [|done]); [by left|by right].
    + intros [[->|?] Hc]; [left|right; done]. congruence.
Qed.

Lemma collator_lookup {V} (d0 : gmap string V) rest b :
  collator (d0 :: rest) = Ok b →
  ∀ key vs, b !! key = Some vs ↔
            key ∈ dom d0 ∧ column (d0 :: rest) key = Ok vs.
Proof.
  unfold collator. intros (items & Hitems & [= <-])%result_bind_Ok key vs.
  apply collator_items in Hitems as [Hfst Hmem].
  rewrite <- elem_of_list_to_map by (rewrite Hfst; apply NoDup_elements).
  rewrite Hmem, elem_of_elements. done.
Qed.

Lemma collator_total {V} (d0 : gmap string V) rest :
  (∀ key, key ∈ dom d0 → ∃ vs, column (d0 :: rest) key = Ok vs) →
  ∃ b, collator (d0 :: rest) = Ok b.
Proof.
  intros Hcols. unfold collator.
  destruct (mapM_total
    (λ key, vs ← column (d0 :: rest) key; mret (key, vs))
    (elements (dom d0))) as [items Hitems].
  { intros key Hkey%elem_of_elements. destruct (Hcols key Hkey) as [vs ->].
    by eexists. }
  rewrite Hitems. by eexists.
Qed.

Lemma column_total {V} (data : list (gmap string V)) key :
  (∀ d, d ∈ data → is_Some (d !! key)) → ∃ vs, column data key = Ok vs.
Proof.
  intros H. apply mapM_total. intros d Hd. unfold getitem.
  destruct (H d Hd) as [v ->]. by eexists.
Qed.

(** C3.  On a non-empty list of records that all carry the keys of the
    first one, the collator returns a mapping whose keys are exactly those of
    the first record; under each key it holds the values of that field read
    off the records in input order, one per record and unchanged. *)
Theorem collator_reshapes_records {V} (data : list (gmap string V)) d0 :
  head data = Some d0 →
  (∀ d, d ∈ data → dom d0 ⊆ dom d) →
  ∃ b, collator data = Ok b ∧
       dom b = dom d0 ∧
       ∀ key, key ∈ dom d0 →
         ∃ vs, b !! key = Some vs ∧
               length vs = length data ∧
               Forall2 (λ d v, d !! key = Some v) data vs.
Proof.
  destruct data as [|d0' rest]; [done|]. intros [= ->] Hkeys.
  assert (∀ key, key ∈ dom d0 → ∃ vs, column (d0 :: rest) key = Ok vs) as Hcol.
  { intros key Hkey. apply column_total. intros d Hd.
    apply elem_of_dom. by apply (Hkeys d Hd). }
  destruct (collator_total d0 rest Hcol) as [b Hb]. exists b.
  pose proof (collator_lookup _ _ _ Hb) as Hlook.
  split; [done|]. split.
  - apply set_eq. intros key. rewrite elem_of_dom. split.
    + intros [vs Hvs]. by apply Hlook in Hvs as [? _].
    + intros Hkey. destruct (Hcol key Hkey) as [vs Hvs]. exists vs.
      by apply Hlook.
  - intros key Hkey. destruct (Hcol key Hkey) as [vs Hvs]. exists vs.
    split; [by apply Hlook|].
    apply column_Ok in Hvs. split; [|done].
    symmetry. by eapply Forall2_length.
Qed.

(** C6.  If some record of the list lacks a key of the first record, the
    collator raises (a KeyError) and returns no batch. *)
Theorem collator_missing_key_raises {V} (data : list (gmap string V)) d0 d key :
  head data = Some d0 →
  key ∈ dom d0 →
  d ∈ data →
  d !! key = None →
  collator data = Raise KeyError.
Proof.
  destruct data as [|d0' rest]; [done|]. intros [= ->] Hkey Hd Hnone.
  unfold collator.
  rewrite (mapM_Raise _ _ key KeyError); [done|by apply elem_of_elements| |].
  - by rewrite (column_missing _ _ d).
  - intros y e'. destruct (column (d0 :: rest) y) eqn:Hc; simpl; [done|].
    intros [= <-]. by apply column_Raise in Hc.
Qed.

(** C9.  On the empty list the collator raises (an IndexError, from
    [data[0]]); it returns no batch. *)
Theorem collator_empty_raises {V} :
  collator (V:=V) [] = Raise IndexError ∧ ∀ b, collator (V:=V) [] ≠ Ok b.
Proof. split; [done|]. intros b. discriminate. Qed.

(** *** The training loop *)

Lemma for_each_app_Raise {W A B} (f : A → M W B) pre x rest w rs w0 e w1 :
  for_each f pre w = (Ok rs, w0) →
  f x w0 = (Raise e, w1) →
  for_each f (pre ++ x :: rest) w = (Raise e, w1).
Proof.
  revert w rs. induction pre as [|y pre IH]; intros w rs; simpl.
  - intros [_ ->]%ret_inv Hx. unfold bind. by rewrite Hx.
  - intros (y' & w2 & Hy & (ys & w3 & Hpre & [_ ->]%ret_inv)%bind_Ok)%bind_Ok Hx.
    unfold bind at 1. rewrite Hy. unfold bind.
    by rewrite (IH _ _ Hpre Hx).
Qed.

(** The loop body touches the random generator and
    [generation_kwargs["max_new_tokens"]] only. *)
Lemma respond_frame query w r w' :
  respond query w = (r, w') → steps w' = steps w ∧ model w' = model w.
Proof.
  unfold respond, ppo_trainer_generate, bind, lift.
  rewrite output_length_sampler_eq.
  destruct (np_random_choice _ (rng w)) as [L g]; cbn.
  destruct (generate (model w) query L g) as [[row|e] g']; cbn;
    by intros [= _ <-].
Qed.

Lemma respond_loop_frame query_tensors w r w' :
  for_each respond query_tensors w = (r, w') →
  steps w' = steps w ∧ model w' = model w.
Proof.
  intros H.
  apply (for_each_invariant
           (λ v, steps v = steps w ∧ model v = model w) _ _) in H; [done| |done].
  intros x v r' v' Hx [Hs Hm]. apply respond_frame in Hx as [-> ->]. done.
Qed.

Lemma respond_generate_Raise query w L g e g' :
  np_random_choice (LengthSampler output_min_length output_max_length)
    (rng w) = (L, g) →
  generate (model w) query L g = (Raise e, g') →
  respond query w =
    (Raise e, set_rng g' (set_max_new_tokens L (set_rng g w))).
Proof.
  intros Hc Hg.
  unfold respond, ppo_trainer_generate, bind, lift.
  rewrite output_length_sampler_eq, Hc. cbn. by rewrite Hg.
Qed.

Lemma train_batch_Ok b w w' :
  train_batch b w = (Ok tt, w') →
  ∃ query_tensors response_tensors w1 decoded queries texts pipe_outputs rewards,
    b !! "input_ids" = Some query_tensors ∧
    for_each respond query_tensors w = (Ok response_tensors, w1) ∧
    decode_responses response_tensors = Ok decoded ∧
    b !! "query" = Some queries ∧
    concat_texts queries (map VStr decoded) = Ok texts ∧
    sentiment_pipe texts = Ok pipe_outputs ∧
    mapM reward_of pipe_outputs = Ok rewards ∧
    steps w' = steps w ++ [(query_tensors, response_tensors, rewards)].
Proof.
  unfold train_batch.
  intros (qs & w0 & [Hqs ->]%lift_inv & (rs & w1 & Hrs &
    (decoded & w2 & [Hdec ->]%lift_inv & (queries & w3 & [Hq ->]%lift_inv &
    (responses & w4 & [Hr ->]%lift_inv & (texts & w5 & [Ht ->]%lift_inv &
    (outs & w6 & [Ho ->]%lift_inv & (rewards & w7 & [Hrew ->]%lift_inv &
    (stats & w8 & Hstep & Hlog
    )%bind_Ok)%bind_Ok)%bind_Ok)%bind_Ok)%bind_Ok)%bind_Ok)%bind_Ok)%bind_Ok
    )%bind_Ok.
  unfold getitem in Hqs, Hq, Hr.
  rewrite lookup_insert_ne in Hq by done. rewrite lookup_insert_eq in Hr.
  destruct (b !! "input_ids") as [qs'|] eqn:Eqs; [|done].
  destruct (b !! "query") as [queries'|] eqn:Eq; [|done].
  injection Hqs as ->. injection Hq as ->. injection Hr as ->.
  exists qs', rs, w1, decoded, queries', texts, outs, rewards.
  repeat split; try done.
  apply respond_loop_frame in Hrs as [Hs Hm].
  unfold ppo_trainer_step in Hstep.
  destruct (ppo_step qs' rs rewards (model w1) (rng w1)) as [[r θ] g].
  injection Hstep as _ <-. unfold log_stats in Hlog. injection Hlog as <-.
  simpl. by rewrite Hs.
Qed.

Lemma concat_texts_lookup queries decoded texts :
  concat_texts queries (map VStr decoded) = Ok texts →
  length texts = (length queries `min` length decoded)%nat ∧
  ∀ i q r, queries !! i = Some q → decoded !! i = Some r →
           ∃ prompt, q = VStr prompt ∧ texts !! i = Some (VStr (prompt +:+ r)).
Proof.
  unfold concat_texts. intros H%mapM_Ok_Forall2. split.
  - apply Forall2_length in H. rewrite <- H, length_zip, length_map. done.
  - intros i q r Hq Hr.
    assert (zip queries (map VStr decoded) !! i = Some (q, VStr r)) as Hz.
    { apply lookup_zip_with_Some. exists q, (VStr r). split; [done|].
      split; [done|]. by rewrite list_lookup_fmap, Hr. }
    destruct (Forall2_lookup_l _ _ _ _ _ H Hz) as (t & Ht & Hadd).
    simpl in Hadd. destruct q as [prompt| | |]; simplify_eq/=. eauto.
Qed.

(** C1.  For a batch collated from a chunk [data] of the dataset, a run of
    the loop body that reaches its end made one call to [ppo_trainer.step],
    with lists [(query_tensors, response_tensors, rewards)] that have one
    entry per row of [data]; at every index [i] the query is the row's
    [input_ids], the response was generated from that query, the scored text
    is the row's [query] text followed by the decoded response, and the reward
    comes from the pipeline's [i]-th output. *)
Theorem train_batch_index_aligned data b w w' :
  collator data = Ok b →
  train_batch b w = (Ok tt, w') →
  ∃ query_tensors response_tensors texts pipe_outputs rewards,
    steps w' = steps w ++ [(query_tensors, response_tensors, rewards)] ∧
    sentiment_pipe texts = Ok pipe_outputs ∧
    length query_tensors = length data ∧
    length response_tensors = length query_tensors ∧
    length texts = length data ∧
    length rewards = length texts ∧
    ∀ i d, data !! i = Some d →
      ∃ q r prompt response output reward,
        d !! "input_ids" = Some q ∧
        d !! "query" = Some (VStr prompt) ∧
        query_tensors !! i = Some q ∧
        response_tensors !! i = Some r ∧
        (∃ v v', respond q v = (Ok r, v')) ∧
        tokenizer_decode (squeeze r) = Ok response ∧
        texts !! i = Some (VStr (prompt +:+ response)) ∧
        pipe_outputs !! i = Some output ∧
        reward_of output = Ok reward ∧
        rewards !! i = Some reward.
Proof using sentiment_pipe_length.
  intros Hcol Htb.
  destruct (train_batch_Ok _ _ _ Htb) as
    (qs & rs & w1 & decoded & queries & texts & outs & rewards &
     Hqs & Hrs & Hdec & Hq & Ht & Ho & Hrew & Hsteps).
  destruct data as [|d0 rest]; [done|].
  pose proof (collator_lookup _ _ _ Hcol) as Hlook.
  apply Hlook in Hqs as [_ F1%column_Ok]. apply Hlook in Hq as [_ F2%column_Ok].
  pose proof (for_each_Forall2 _ _ _ _ _ Hrs) as F3.
  pose proof Hdec as F4%mapM_Ok_Forall2.
  pose proof Hrew as F5%mapM_Ok_Forall2.
  apply concat_texts_lookup in Ht as [Hlen Htext].
  pose proof (Forall2_length _ _ _ F1) as L1.
  pose proof (Forall2_length _ _ _ F2) as L2.
  pose proof (Forall2_length _ _ _ F3) as L3.
  pose proof (Forall2_length _ _ _ F4) as L4.
  pose proof (Forall2_length _ _ _ F5) as L5.
  pose proof (sentiment_pipe_length _ _ Ho) as L6.
  exists qs, rs, texts, outs, rewards.
  repeat split; try done; try lia.
  intros i d Hd.
  destruct (Forall2_lookup_l _ _ _ _ _ F1 Hd) as (q & Hqi & Hdq).
  destruct (Forall2_lookup_l _ _ _ _ _ F2 Hd) as (qv & Hqv & Hdqv).
  destruct (Forall2_lookup_l _ _ _ _ _ F3 Hqi) as (r & Hri & Hresp).
  destruct (Forall2_lookup_l _ _ _ _ _ F4 Hri) as (response & Hdi & Hdecode).
  destruct (Htext _ _ _ Hqv Hdi) as (prompt & -> & Hti).
  destruct (lookup_lt_is_Some_2 outs i) as [output Hoi].
  { apply lookup_lt_Some in Hti. lia. }
  destruct (Forall2_lookup_l _ _ _ _ _ F5 Hoi) as (reward & Hrwi & Hrw).
  exists q, r, prompt, response, output, reward. done.
Qed.

Lemma bind_eq_Ok {W A B} (m : M W A) (k : A → M W B) w a w1 :
  m w = (Ok a, w1) → bind m k w = k a w1.
Proof. unfold bind. by intros ->. Qed.

Lemma bind_eq_Raise {W A B} (m : M W A) (k : A → M W B) w e w1 :
  m w = (Raise e, w1) → bind m k w = (Raise e, w1).
Proof. unfold bind. by intros ->. Qed.

Lemma train_batch_generation_Raise b w query_tensors e w1 :
  b !! "input_ids" = Some query_tensors →
  for_each respond query_tensors w = (Raise e, w1) →
  train_batch b w = (Raise e, w1).
Proof.
  intros Hqs Hloop. unfold train_batch.
  erewrite bind_eq_Ok; [|unfold lift, getitem; by rewrite Hqs].
  by erewrite bind_eq_Raise.
Qed.

Lemma train_batch_scoring_Raise b w query_tensors response_tensors w1
    decoded queries texts e :
  b !! "input_ids" = Some query_tensors →
  for_each respond query_tensors w = (Ok response_tensors, w1) →
  decode_responses response_tensors = Ok decoded →
  b !! "query" = Some queries →
  concat_texts queries (map VStr decoded) = Ok texts →
  sentiment_pipe texts = Raise e →
  train_batch b w = (Raise e, w1).
Proof.
  intros Hqs Hrs Hdec Hq Ht Hpipe. unfold train_batch.
  erewrite bind_eq_Ok; [|unfold lift, getitem; by rewrite Hqs].
  erewrite bind_eq_Ok; [|exact Hrs].
  erewrite bind_eq_Ok; [|unfold lift; by rewrite Hdec].
  cbv zeta.
  erewrite bind_eq_Ok;
    [|unfold lift, getitem; rewrite lookup_insert_ne by done; by rewrite Hq].
  erewrite bind_eq_Ok; [|unfold lift, getitem; by rewrite lookup_insert_eq].
  erewrite bind_eq_Ok; [|unfold lift; by rewrite Ht].
  erewrite bind_eq_Raise; [done|unfold lift; by rewrite Hpipe].
Qed.

(** C8.  If [generate] raises for some query of the batch, or the sentiment
    pipeline raises on the batch's texts, the loop body ends with that very
    exception, in the state reached when it was raised: no call to
    [ppo_trainer.step] has been made and the policy's weights are those the
    batch started with.  Nothing catches the exception: the training loop
    ends with it as well, whatever chunks were still to come. *)
Theorem exception_aborts_batch b w query_tensors e w1 :
  b !! "input_ids" = Some query_tensors →
  ((∃ pre q rest rs w0 L g g',
      query_tensors = pre ++ q :: rest ∧
      for_each respond pre w = (Ok rs, w0) ∧
      np_random_choice (LengthSampler output_min_length output_max_length)
        (rng w0) = (L, g) ∧
      generate (model w0) q L g = (Raise e, g') ∧
      w1 = set_rng g' (set_max_new_tokens L (set_rng g w0)))
   ∨
   (∃ response_tensors decoded queries texts,
      for_each respond query_tensors w = (Ok response_tensors, w1) ∧
      decode_responses response_tensors = Ok decoded ∧
      b !! "query" = Some queries ∧
      concat_texts queries (map VStr decoded) = Ok texts ∧
      sentiment_pipe texts = Raise e)) →
  train_batch b w = (Raise e, w1) ∧
  steps w1 = steps w ∧
  model w1 = model w ∧
  ∀ data dataloader,
    collator data = Ok b →
    training_loop (data :: dataloader) w = (Raise e, w1).
Proof.
  intros Hqs Hraise.
  assert (train_batch b w = (Raise e, w1) ∧
          steps w1 = steps w ∧ model w1 = model w) as (Hb & Hs & Hm).
  { destruct Hraise as
      [(pre & q & rest & rs & w0 & L & g & g' & -> & Hpre & Hc & Hg & ->)
      |(rs & decoded & queries & texts & Hrs & Hdec & Hq & Ht & Hpipe)].
    - pose proof (respond_generate_Raise _ _ _ _ _ _ Hc Hg) as Hq.
      pose proof (for_each_app_Raise _ _ _ rest _ _ _ _ _ Hpre Hq) as Hloop.
      split; [by eapply train_batch_generation_Raise|].
      by apply respond_loop_frame in Hloop.
    - split; [by eapply train_batch_scoring_Raise|].
      by apply respond_loop_frame in Hrs. }
  split_and!; try done.
  intros data dataloader Hcol. unfold training_loop. simpl.
  apply bind_eq_Raise. erewrite bind_eq_Ok; [exact Hb|].
  unfold lift. by rewrite Hcol.
Qed.

(** *** The evaluation cell *)

Lemma evaluate_example_lookup query_tensors i w p w' :
  evaluate_example query_tensors i w = (Ok p, w') →
  is_Some (query_tensors !! i).
Proof.
  unfold evaluate_example.
  intros (L & w1 & _ & (q & w2 & [Hq _]%lift_inv & _)%bind_Ok)%bind_Ok.
  unfold list_getitem in Hq. by destruct (query_tensors !! i).
Qed.

Lemma decode_all_length tensors decoded :
  decode_all tensors = Ok decoded → length decoded = bs.
Proof.
  unfold decode_all. intros ->%mapM_Ok_length. apply length_seq.
Qed.

Lemma score_texts_Ok texts rewards :
  score_texts texts = Ok rewards →
  ∃ pipe_outputs,
    sentiment_pipe texts = Ok pipe_outputs ∧
    Forall2 (λ output reward, positive_score output = Ok reward)
            pipe_outputs rewards.
Proof.
  unfold score_texts. intros (outs & Ho & Hr%mapM_Ok_Forall2)%result_bind_Ok.
  eauto.
Qed.

Lemma evaluate_Ok dataset w game_data w' :
  evaluate dataset w = (Ok game_data, w') →
  ∃ df_batch query query_tensors pairs w1 w2 before after
    texts_before rewards_before texts_after rewards_after,
    column df_batch "query" = Ok query ∧
    column df_batch "input_ids" = Ok query_tensors ∧
    for_each (evaluate_example query_tensors) (seq 0 bs) w1 = (Ok pairs, w2) ∧
    decode_all (map fst pairs) = Ok before ∧
    decode_all (map snd pairs) = Ok after ∧
    concat_texts query (map VStr before) = Ok texts_before ∧
    score_texts texts_before = Ok rewards_before ∧
    concat_texts query (map VStr after) = Ok texts_after ∧
    score_texts texts_after = Ok rewards_after ∧
    game_data =
      <["rewards (after)" := rewards_after]>
        (<["rewards (before)" := rewards_before]>
           (<["response (after)" := map VStr after]>
              (<["response (before)" := map VStr before]>
                 (<["query" := query]> ∅)))).
Proof.
  unfold evaluate.
  intros (u & w0 & Hfmt & (df & w1 & Hdf & (query & w2 & [Hq ->]%lift_inv &
    (qs & w3 & [Hqs ->]%lift_inv & (pairs & w4 & Hloop &
    (before & w5 & [Hb ->]%lift_inv & (after & w6 & [Ha ->]%lift_inv &
    (q1 & w7 & [Hq1 ->]%lift_inv & (r1 & w8 & [Hr1 ->]%lift_inv &
    (t1 & w9 & [Ht1 ->]%lift_inv & (s1 & w10 & [Hs1 ->]%lift_inv &
    (q2 & w11 & [Hq2 ->]%lift_inv & (r2 & w12 & [Hr2 ->]%lift_inv &
    (t2 & w13 & [Ht2 ->]%lift_inv & (s2 & w14 & [Hs2 ->]%lift_inv &
    [[= ->] _]%ret_inv
    )%bind_Ok)%bind_Ok)%bind_Ok)%bind_Ok)%bind_Ok)%bind_Ok)%bind_Ok)%bind_Ok
    )%bind_Ok)%bind_Ok)%bind_Ok)%bind_Ok)%bind_Ok)%bind_Ok)%bind_Ok.
  unfold getitem in Hq1, Hr1, Hq2, Hr2.
  rewrite !lookup_insert_ne, lookup_insert_eq in Hq1 by done.
  rewrite lookup_insert_ne, lookup_insert_eq in Hr1 by done.
  rewrite !lookup_insert_ne, lookup_insert_eq in Hq2 by done.
  rewrite lookup_insert_ne, lookup_insert_eq in Hr2 by done.
  simplify_eq.
  by eexists df, query, qs, pairs, _, _, before, after, t1, s1, t2, s2.
Qed.

Lemma evaluate_columns_length query_tensors w1 pairs w2 :
  for_each (evaluate_example query_tensors) (seq 0 bs) w1 = (Ok pairs, w2) →
  (bs ≤ length query_tensors)%nat.
Proof.
  intros F%for_each_Forall2.
  destruct (Forall2_lookup_l _ _ _ (bs - 1) (bs - 1)%nat F)
    as (p & _ & v & v' & Hp); [done|].
  apply evaluate_example_lookup in Hp as [q Hq].
  apply lookup_lt_Some in Hq. unfold bs in *. lia.
Qed.

(** C7.  In a run of the evaluation cell that returns, the texts scored for
    the "before" column and those scored for the "after" column are both
    built from [game_data["query"]]: at every index [i] below [bs] they are the
    same query text followed by the reference model's response and by the
    policy's response respectively. *)
Theorem evaluation_texts_share_prompts dataset w game_data w' :
  evaluate dataset w = (Ok game_data, w') →
  ∃ query before after texts_before texts_after rewards_before rewards_after,
    game_data !! "query" = Some query ∧
    game_data !! "response (before)" = Some (map VStr before) ∧
    game_data !! "response (after)" = Some (map VStr after) ∧
    concat_texts query (map VStr before) = Ok texts_before ∧
    concat_texts query (map VStr after) = Ok texts_after ∧
    score_texts texts_before = Ok rewards_before ∧
    score_texts texts_after = Ok rewards_after ∧
    game_data !! "rewards (before)" = Some rewards_before ∧
    game_data !! "rewards (after)" = Some rewards_after ∧
    length texts_before = bs ∧
    length texts_after = bs ∧
    ∀ i, (i < bs)%nat →
      ∃ prompt response_before response_after,
        query !! i = Some (VStr prompt) ∧
        before !! i = Some response_before ∧
        after !! i = Some response_after ∧
        texts_before !! i = Some (VStr (prompt +:+ response_before)) ∧
        texts_after !! i = Some (VStr (prompt +:+ response_after)).
Proof.
  intros (df & query & qs & pairs & w1 & w2 & before & after & tb & sb & ta & sa
          & Hq & Hqs & Hloop & Hb & Ha & Htb & Hsb & Hta & Hsa & ->)%evaluate_Ok.
  apply evaluate_columns_length in Hloop.
  apply column_Ok, Forall2_length in Hq. apply column_Ok, Forall2_length in Hqs.
  apply decode_all_length in Hb, Ha.
  pose proof Htb as [Lb Ib]%concat_texts_lookup.
  pose proof Hta as [La Ia]%concat_texts_lookup.
  exists query, before, after, tb, ta, sb, sa.
  split_and!; try done; try lia.
  intros i Hi.
  destruct (lookup_lt_is_Some_2 query i) as [q Hqi]; [lia|].
  destruct (lookup_lt_is_Some_2 before i) as [rb Hrb]; [lia|].
  destruct (lookup_lt_is_Some_2 after i) as [ra Hra]; [lia|].
  destruct (Ib _ _ _ Hqi Hrb) as (prompt & -> & Hbi).
  destruct (Ia _ _ _ Hqi Hra) as (prompt' & [= <-] & Hai).
  by exists prompt, rb, ra.
Qed.

Lemma positive_score_Ok output s :
  positive_score output = Ok s ↔ score_at_index_1 output s.
Proof.
  unfold positive_score, score_at_index_1, list_getitem, getitem.
  destruct (output !! 1%nat) as [entry|]; simpl;
    [|split; [done|]; by intros (? & ? & _)].
  destruct (entry !! "score") as [v|] eqn:Hv.
  - split; [intros [= ->]; eauto|]. intros (? & [= <-] & ?). congruence.
  - split; [done|]. intros (? & [= <-] & ?). congruence.
Qed.

Lemma reward_of_Ok output reward :
  reward_of output = Ok reward → score_at_index_1 output reward.
Proof.
  unfold reward_of. intros (s & Hs & Ht)%result_bind_Ok.
  apply positive_score_Ok in Hs. by destruct s; simplify_eq/=.
Qed.

(** C4.  The reward taken from a pipeline output is the ["score"] field of
    its element at index 1, and of no other element: this is what
    [output[1]["score"]] returns whenever it returns, what the training loop
    hands to [ppo_trainer.step] for each output of the pipeline, and what the
    evaluation cell stores in both of its reward columns. *)
Theorem reward_is_score_at_index_1 :
  (∀ output s, positive_score output = Ok s ↔ score_at_index_1 output s) ∧
  (∀ b w w',
     train_batch b w = (Ok tt, w') →
     ∃ query_tensors response_tensors texts pipe_outputs rewards,
       steps w' = steps w ++ [(query_tensors, response_tensors, rewards)] ∧
       sentiment_pipe texts = Ok pipe_outputs ∧
       Forall2 score_at_index_1 pipe_outputs rewards) ∧
  (∀ dataset w game_data w',
     evaluate dataset w = (Ok game_data, w') →
     ∃ texts_before outputs_before rewards_before
       texts_after outputs_after rewards_after,
       game_data !! "rewards (before)" = Some rewards_before ∧
       sentiment_pipe texts_before = Ok outputs_before ∧
       Forall2 score_at_index_1 outputs_before rewards_before ∧
       game_data !! "rewards (after)" = Some rewards_after ∧
       sentiment_pipe texts_after = Ok outputs_after ∧
       Forall2 score_at_index_1 outputs_after rewards_after).
Proof.
  split; [exact positive_score_Ok|]. split.
  - intros b w w' (qs & rs & w1 & decoded & queries & texts & outs & rewards &
      _ & _ & _ & _ & _ & Ho & Hrew%mapM_Ok_Forall2 & Hsteps)%train_batch_Ok.
    exists qs, rs, texts, outs, rewards. split_and!; [done..|].
    eapply Forall2_impl; [exact Hrew|]. apply reward_of_Ok.
  - intros dataset w game_data w'
      (df & query & qs & pairs & w1 & w2 & before & after & tb & sb & ta & sa
       & _ & _ & _ & _ & _ & _ & Hsb & _ & Hsa & ->)%evaluate_Ok.
    apply score_texts_Ok in Hsb as (ob & Hob & Fb).
    apply score_texts_Ok in Hsa as (oa & Hoa & Fa).
    exists tb, ob, sb, ta, oa, sa. split_and!; try done.
    + eapply Forall2_impl; [exact Fb|]. intros ??. apply positive_score_Ok.
    + eapply Forall2_impl; [exact Fa|]. intros ??. apply positive_score_Ok.
Qed.

(** *** The dataset builder *)

(** The length of a text counts characters, not bytes: it is additive over
    concatenation, at most the number of bytes, and below it as soon as a
    character takes more than one byte. *)
Lemma code_points_app s t :
  code_points (s +:+ t) = (code_points s + code_points t)%nat.
Proof.
  induction s as [|c s IH]; simpl; [done|].
  destruct (is_continuation_byte c); by rewrite IH.
Qed.

Lemma code_points_le_length s : (code_points s ≤ String.length s)%nat.
Proof.
  induction s as [|c s IH]; simpl; [done|].
  destruct (is_continuation_byte c); lia.
Qed.

Lemma long_review_counts_characters :
  String.length Toy.accented = 208%nat ∧
  py_len (VStr Toy.accented) = Ok 196 ∧
  long_review {[ "review" := VStr Toy.accented ]} = Ok false.
Proof. split_and!; vm_compute; reflexivity. Qed.

Lemma rename_columns_review corpus ds :
  mapM (rename_column "text" "review") corpus = Ok ds →
  ∃ texts, column corpus "text" = Ok texts ∧ column ds "review" = Ok texts.
Proof.
  intros F%mapM_Ok_Forall2.
  enough (∃ texts, Forall2 (λ d v, d !! "text" = Some v) corpus texts ∧
                   Forall2 (λ d v, d !! "review" = Some v) ds texts)
    as (texts & ? & ?) by (exists texts; by rewrite !column_Ok).
  induction F as [|r r' corpus ds Hr _ (texts & ? & ?)]; [by exists []|].
  unfold rename_column in Hr.
  destruct (r !! "text") as [v|] eqn:Hv; [|done].
  destruct (r !! "review"); [done|]. injection Hr as <-.
  exists (v :: texts). split; constructor; try done.
  by rewrite lookup_insert_eq.
Qed.

Lemma filter_long_reviews ds ds' texts :
  filterM long_review ds = Ok ds' →
  Forall2 (λ d v, d !! "review" = Some v) ds texts →
  Forall2 (λ d v, d !! "review" = Some v) ds' (List.filter long_text texts) ∧
  Forall (λ t, ∃ n, py_len t = Ok n) texts.
Proof.
  intros Hf F. revert ds' Hf.
  induction F as [|x v ds texts Hx _ IH]; intros ds'; simpl.
  - intros [= <-]. split; constructor.
  - intros (b & Hb & (rest & Hrest & [= <-])%result_bind_Ok)%result_bind_Ok.
    destruct (IH _ Hrest) as [IH1 IH2].
    unfold long_review, getitem in Hb. rewrite Hx in Hb. simpl in Hb.
    apply result_bind_Ok in Hb as (n & Hn & [= <-]).
    unfold long_text. rewrite Hn. split.
    + destruct (200 <? n); [by constructor|done].
    + constructor; eauto.
Qed.

Lemma tokenize_review input_size sample w sample' w' :
  tokenize input_size sample w = (Ok sample', w') →
  sample' !! "review" = sample !! "review".
Proof.
  unfold tokenize.
  intros (review & w1 & _ & (ids & w2 & _ & (n & w3 & _ &
    (input_ids & w4 & _ & (query & w5 & _ & [[= ->] _]%ret_inv
    )%bind_Ok)%bind_Ok)%bind_Ok)%bind_Ok)%bind_Ok.
  by rewrite !lookup_insert_ne.
Qed.

(** C5 (as amended).  In a run of [build_dataset] that returns, the reviews
    of the built dataset are the texts of the corpus whose length is greater
    than 200, in corpus order: a text of the corpus is left out if and only
    if its length is at most 200, and every review kept is longer than 200. *)
Theorem build_dataset_keeps_long_reviews name lo hi w ds w' :
  build_dataset name lo hi w = (Ok ds, w') →
  ∃ corpus texts reviews,
    load_dataset name = Ok corpus ∧
    column corpus "text" = Ok texts ∧
    column ds "review" = Ok reviews ∧
    reviews = List.filter long_text texts ∧
    (∀ t, t ∈ texts → ∃ n, py_len t = Ok n ∧ (t ∉ reviews ↔ n ≤ 200)) ∧
    (∀ t, t ∈ reviews → ∃ n, py_len t = Ok n ∧ 200 < n).
Proof.
  unfold build_dataset.
  intros (corpus & w1 & [Hload ->]%lift_inv & (ds1 & w2 & [Hren ->]%lift_inv &
    (ds2 & w3 & [Hfil ->]%lift_inv & (ds3 & w4 & Htok & [[= ->] _]%ret_inv
    )%bind_Ok)%bind_Ok)%bind_Ok)%bind_Ok.
  symmetry in Hload, Hren, Hfil.
  apply rename_columns_review in Hren as (texts & Htexts & F1%column_Ok).
  destruct (filter_long_reviews _ _ _ Hfil F1) as [F2 Hlen].
  apply for_each_Forall2 in Htok.
  assert (Forall2 (λ d v, d !! "review" = Some v) ds3
                  (List.filter long_text texts)) as F3.
  { eapply Forall2_trans; [|apply Forall2_flip, Htok|exact F2].
    intros d' d v (v1 & v2 & Ht) Hd. apply tokenize_review in Ht. congruence. }
  exists corpus, texts, (List.filter long_text texts).
  split_and!; try done; [by apply column_Ok| |].
  - intros t Ht. rewrite Forall_forall in Hlen.
    destruct (Hlen t Ht) as [n Hn]. exists n. split; [done|].
    rewrite list_elem_of_In, filter_In, <- list_elem_of_In.
    unfold long_text. rewrite Hn.
    destruct (Z.ltb_spec 200 n).
    + split; [intros []; by split|lia].
    + split; [done|]. by intros _ [_ ?].
  - intros t [Ht Hlong]%list_elem_of_In%filter_In.
    unfold long_text in Hlong. destruct (py_len t) as [n|]; [|done].
    exists n. split; [done|lia].
Qed.

(** ** Further properties

    *** State kept by generation *)

(** The loop body of the training cell leaves everything but the random
    generator and [generation_kwargs] as it was, whether it returns or
    raises. *)
Lemma respond_keeps query w r w' :
  respond query w = (r, w') →
  steps w' = steps w ∧ logged w' = logged w ∧
  model w' = model w ∧ ref_model w' = ref_model w.
Proof.
  unfold respond, ppo_trainer_generate, bind, lift.
  rewrite output_length_sampler_eq.
  destruct (np_random_choice _ (rng w)) as [L g]; cbn.
  destruct (generate (model w) query L g) as [[row|e] g']; cbn;
    by intros [= _ <-].
Qed.

Lemma respond_loop_keeps query_tensors w r w' :
  for_each respond query_tensors w = (r, w') →
  steps w' = steps w ∧ logged w' = logged w ∧
  model w' = model w ∧ ref_model w' = ref_model w.
Proof.
  intros H.
  apply (for_each_invariant
           (λ v, steps v = steps w ∧ logged v = logged w ∧
                 model v = model w ∧ ref_model v = ref_model w) _ _) in H;
    [done| |done].
  intros x v r' v' Hx (Hs & Hl & Hm & Hr).
  apply respond_keeps in Hx as (-> & -> & -> & ->). done.
Qed.

(** *** The training loop, batch by batch *)

(** What a run of the loop body that reaches its end has done. *)
Lemma train_batch_Ok_state b w w' :
  train_batch b w = (Ok tt, w') →
  ∃ query_tensors response_tensors w1 decoded queries texts pipe_outputs
    rewards stats θ g,
    b !! "input_ids" = Some query_tensors ∧
    for_each respond query_tensors w = (Ok response_tensors, w1) ∧
    decode_responses response_tensors = Ok decoded ∧
    b !! "query" = Some queries ∧
    concat_texts queries (map VStr decoded) = Ok texts ∧
    sentiment_pipe texts = Ok pipe_outputs ∧
    mapM reward_of pipe_outputs = Ok rewards ∧
    ppo_step query_tensors response_tensors rewards (model w1) (rng w1)
      = (Ok stats, θ, g) ∧
    w' = push_log (stats, <["response" := map VStr decoded]> b, rewards)
           (push_step (query_tensors, response_tensors, rewards)
              (set_model θ (set_rng g w1))).
Proof.
  unfold train_batch.
  intros (qs & w0 & [Hqs ->]%lift_inv & (rs & w1 & Hrs &
    (decoded & w2 & [Hdec ->]%lift_inv & (queries & w3 & [Hq ->]%lift_inv &
    (responses & w4 & [Hr ->]%lift_inv & (texts & w5 & [Ht ->]%lift_inv &
    (outs & w6 & [Ho ->]%lift_inv & (rewards & w7 & [Hrew ->]%lift_inv &
    (stats & w8 & Hstep & Hlog
    )%bind_Ok)%bind_Ok)%bind_Ok)%bind_Ok)%bind_Ok)%bind_Ok)%bind_Ok)%bind_Ok
    )%bind_Ok.
  unfold getitem in Hqs, Hq, Hr.
  rewrite lookup_insert_ne in Hq by done. rewrite lookup_insert_eq in Hr.
  destruct (b !! "input_ids") as [qs'|] eqn:Eqs; [|done].
  destruct (b !! "query") as [queries'|] eqn:Eq; [|done].
  injection Hqs as ->. injection Hq as ->. injection Hr as ->.
  unfold ppo_trainer_step in Hstep.
  destruct (ppo_step qs' rs rewards (model w1) (rng w1)) as [[r θ] g] eqn:Hp.
  injection Hstep as -> <-. unfold log_stats in Hlog. injection Hlog as <-.
  by exists qs', rs, w1, decoded, queries', texts, outs, rewards, stats, θ, g.
Qed.

(** X1.  A run of the loop body that ends with an exception has logged no
    statistics and left the reference model alone; the policy and the record
    of optimisation steps are as before the batch, unless it is
    [ppo_trainer.step] itself that raised, on the one call made. *)
Theorem failed_batch_logs_nothing b w e w' :
  train_batch b w = (Raise e, w') →
  logged w' = logged w ∧
  ref_model w' = ref_model w ∧
  ((steps w' = steps w ∧ model w' = model w) ∨
   ∃ query_tensors response_tensors rewards g0 θ g,
     ppo_step query_tensors response_tensors rewards (model w) g0
       = (Raise e, θ, g) ∧
     steps w' = steps w ++ [(query_tensors, response_tensors, rewards)] ∧
     model w' = θ).
Proof.
  unfold train_batch, bind, lift.
  destruct (getitem b "input_ids") as [qs|e0]; [|intros [= _ <-]; auto].
  destruct (for_each respond qs w) as [[rs|e1] w1] eqn:Hrs;
    apply respond_loop_keeps in Hrs as (Hs & Hl & Hm & Hr);
    [|intros [= _ <-]; auto].
  destruct (decode_responses rs) as [decoded|e2]; [|intros [= _ <-]; auto].
  cbv zeta.
  destruct (getitem _ "query") as [queries|e3]; [|intros [= _ <-]; auto].
  destruct (getitem _ "response") as [responses|e4]; [|intros [= _ <-]; auto].
  destruct (concat_texts queries responses) as [texts|e5];
    [|intros [= _ <-]; auto].
  destruct (sentiment_pipe texts) as [outs|e6]; [|intros [= _ <-]; auto].
  destruct (mapM reward_of outs) as [rewards|e7]; [|intros [= _ <-]; auto].
  unfold ppo_trainer_step, log_stats.
  destruct (ppo_step qs rs rewards (model w1) (rng w1)) as [[[stats|e8] θ] g]
    eqn:Hp; [done|].
  intros [= <- <-]. simpl. split_and!; [done..|].
  right. exists qs, rs, rewards, (rng w1), θ, g. by rewrite Hs, <- Hm.
Qed.

(** X2.  In a run of the loop body that reaches its end on any batch,
    [ppo_trainer.log_stats] is called once, with the rewards handed to
    [ppo_trainer.step] and with the batch as it came in except for its
    ["response"] column, which now holds one decoded text per query. *)
Theorem train_batch_logs_responses b w w' :
  train_batch b w = (Ok tt, w') →
  ∃ query_tensors response_tensors rewards stats decoded,
    steps w' = steps w ++ [(query_tensors, response_tensors, rewards)] ∧
    logged w' =
      logged w ++ [(stats, <["response" := map VStr decoded]> b, rewards)] ∧
    b !! "input_ids" = Some query_tensors ∧
    Forall2 (λ r text, tokenizer_decode (squeeze r) = Ok text)
            response_tensors decoded ∧
    length decoded = length query_tensors.
Proof.
  intros (qs & rs & w1 & decoded & queries & texts & outs & rewards & stats &
          θ & g & Hqs & Hrs & Hdec & _ & _ & _ & _ & _ & ->)%train_batch_Ok_state.
  pose proof (respond_loop_keeps _ _ _ _ Hrs) as (Hs & Hl & _ & _).
  apply for_each_Forall2, Forall2_length in Hrs.
  apply mapM_Ok_Forall2 in Hdec. pose proof (Forall2_length _ _ _ Hdec).
  exists qs, rs, rewards, stats, decoded. simpl. rewrite Hs, Hl.
  split_and!; try done. lia.
Qed.


(** X4.  A run of the training loop that reaches its end has called
    [ppo_trainer.step] and [ppo_trainer.log_stats] once per chunk of the
    dataloader, in order: the queries of each step are the ["input_ids"] of its
    chunk, and each log entry carries the rewards of its step. *)
Theorem training_loop_steps_once_per_chunk dataloader w units w' :
  training_loop dataloader w = (Ok units, w') →
  ∃ calls logs,
    steps w' = steps w ++ calls ∧
    logged w' = logged w ++ logs ∧
    Forall2 (λ data call, column data "input_ids" = Ok call.1.1)
            dataloader calls ∧
    Forall2 (λ call log, log.2 = call.2) calls logs.
Proof.
  unfold training_loop. revert w units w'.
  induction dataloader as [|data dataloader IH]; intros w units w'; simpl.
  - intros [_ ->]%ret_inv. exists [], []. by rewrite !app_nil_r.
  - intros (u & w1 & (b & w0 & [Hcol ->]%lift_inv & Hb)%bind_Ok &
            (us & w2 & Hrest & [_ ->]%ret_inv)%bind_Ok)%bind_Ok.
    destruct u. symmetry in Hcol.
    apply train_batch_Ok_state in Hb as
      (qs & rs & v & decoded & queries & texts & outs & rewards & stats &
       θ & g & Hqs & Hrs & _ & _ & _ & _ & _ & _ & ->).
    apply respond_loop_keeps in Hrs as (Hs & Hl & _ & _).
    destruct (IH _ _ _ Hrest) as (calls & logs & Hsteps & Hlogs & F1 & F2).
    simpl in Hsteps, Hlogs. rewrite Hs in Hsteps. rewrite Hl in Hlogs.
    exists ((qs, rs, rewards) :: calls),
           ((stats, <["response" := map VStr decoded]> b, rewards) :: logs).
    rewrite Hsteps, Hlogs, <- !app_assoc. split_and!; try done.
    + constructor; [|done]. simpl.
      destruct data as [|d0 rest]; [done|].
      by apply (collator_lookup _ _ _ Hcol) in Hqs as [_ ?].
    + by constructor.
Qed.

(** *** The evaluation cell *)

Ltac destruct_run :=
  repeat match goal with
         | |- context [match ?x with _ => _ end] => destruct x eqn:?
         end.

Lemma generate_trimmed_keeps θ query gen_len w r w' :
  generate_trimmed θ query gen_len w = (r, w') →
  steps w' = steps w ∧ logged w' = logged w ∧ model w' = model w ∧
  ref_model w' = ref_model w ∧ max_new_tokens w' = max_new_tokens w ∧
  dataset_format w' = dataset_format w.
Proof.
  unfold generate_trimmed, bind, lift.
  destruct (torch_tensor query) as [t|e]; [|by intros [= _ <-]].
  destruct (generate θ t gen_len (rng w)) as [[row|e] g];
    by intros [= _ <-].
Qed.

Lemma evaluate_example_keeps query_tensors i w r w' :
  evaluate_example query_tensors i w = (r, w') →
  steps w' = steps w ∧ logged w' = logged w ∧ model w' = model w ∧
  ref_model w' = ref_model w ∧ max_new_tokens w' = max_new_tokens w ∧
  dataset_format w' = dataset_format w.
Proof.
  unfold evaluate_example, bind, lift, ret.
  rewrite output_length_sampler_eq.
  destruct (np_random_choice _ (rng w)) as [L g]. cbv beta iota zeta.
  destruct (list_getitem query_tensors i) as [q|e]; [|by intros [= _ <-]].
  destruct (generate_trimmed _ q L (set_rng g w)) as [[o_ref|e] w1] eqn:Href;
    apply generate_trimmed_keeps in Href as (? & ? & ? & ? & ? & ?);
    [|by intros [= _ <-]].
  destruct (generate_trimmed _ q L w1) as [[o|e] w2] eqn:Hpol;
    apply generate_trimmed_keeps in Hpol as (? & ? & ? & ? & ? & ?);
    intros [= _ <-]; simpl in *; split_and!; congruence.
Qed.

(** X5.  The evaluation cell only reads the two models: whether it returns
    or raises, it has made no optimisation step and no log entry, the weights
    of the policy and of the reference model are unchanged, and
    [generation_kwargs] is not written to (the drawn length is passed as an
    argument).  What it changes is the random generator and the output
    format of the dataset it shares with the trainer, which it leaves set to
    "pandas". *)
Theorem evaluate_reads_only dataset w r w' :
  evaluate dataset w = (r, w') →
  steps w' = steps w ∧ logged w' = logged w ∧ model w' = model w ∧
  ref_model w' = ref_model w ∧ max_new_tokens w' = max_new_tokens w ∧
  dataset_format w' = "pandas".
Proof.
  unfold evaluate, bind, lift, ret. cbv zeta.
  set (w0 := set_dataset_format "pandas" w).
  destruct (df_sample dataset bs (rng w0)) as [[df|e] g];
    [|by intros [= _ <-]].
  destruct (column df "query") as [query|e]; [|by intros [= _ <-]].
  destruct (column df "input_ids") as [qs|e]; [|by intros [= _ <-]].
  destruct (for_each (evaluate_example qs) (seq 0 bs) (set_rng g w0))
    as [r0 w1] eqn:Hloop.
  apply (for_each_invariant
           (λ v, steps v = steps w ∧ logged v = logged w ∧ model v = model w ∧
                 ref_model v = ref_model w ∧
                 max_new_tokens v = max_new_tokens w ∧
                 dataset_format v = "pandas") _ _) in Hloop; [|..|done].
  - destruct_run; by intros [= _ <-].
  - intros x v r' v' Hx (? & ? & ? & ? & ? & ?).
    apply evaluate_example_keeps in Hx as (-> & -> & -> & -> & -> & ->). done.
Qed.

Lemma evaluate_Ok_sample dataset w game_data w' :
  evaluate dataset w = (Ok game_data, w') →
  ∃ df_batch g query query_tensors pairs w2 before after
    texts_before rewards_before texts_after rewards_after,
    df_sample dataset bs (rng w) = (Ok df_batch, g) ∧
    column df_batch "query" = Ok query ∧
    column df_batch "input_ids" = Ok query_tensors ∧
    for_each (evaluate_example query_tensors) (seq 0 bs)
      (set_rng g (set_dataset_format "pandas" w)) = (Ok pairs, w2) ∧
    decode_all (map fst pairs) = Ok before ∧
    decode_all (map snd pairs) = Ok after ∧
    concat_texts query (map VStr before) = Ok texts_before ∧
    score_texts texts_before = Ok rewards_before ∧
    concat_texts query (map VStr after) = Ok texts_after ∧
    score_texts texts_after = Ok rewards_after ∧
    game_data =
      <["rewards (after)" := rewards_after]>
        (<["rewards (before)" := rewards_before]>
           (<["response (after)" := map VStr after]>
              (<["response (before)" := map VStr before]>
                 (<["query" := query]> ∅)))).
Proof.
  unfold evaluate.
  intros (u & w0 & Hfmt & (df & w1 & Hdf & (query & w2 & [Hq ->]%lift_inv &
    (qs & w3 & [Hqs ->]%lift_inv & (pairs & w4 & Hloop &
    (before & w5 & [Hb ->]%lift_inv & (after & w6 & [Ha ->]%lift_inv &
    (q1 & w7 & [Hq1 ->]%lift_inv & (r1 & w8 & [Hr1 ->]%lift_inv &
    (t1 & w9 & [Ht1 ->]%lift_inv & (s1 & w10 & [Hs1 ->]%lift_inv &
    (q2 & w11 & [Hq2 ->]%lift_inv & (r2 & w12 & [Hr2 ->]%lift_inv &
    (t2 & w13 & [Ht2 ->]%lift_inv & (s2 & w14 & [Hs2 ->]%lift_inv &
    [[= ->] _]%ret_inv
    )%bind_Ok)%bind_Ok)%bind_Ok)%bind_Ok)%bind_Ok)%bind_Ok)%bind_Ok)%bind_Ok
    )%bind_Ok)%bind_Ok)%bind_Ok)%bind_Ok)%bind_Ok)%bind_Ok)%bind_Ok.
  unfold getitem in Hq1, Hr1, Hq2, Hr2.
  rewrite !lookup_insert_ne, lookup_insert_eq in Hq1 by done.
  rewrite lookup_insert_ne, lookup_insert_eq in Hr1 by done.
  rewrite !lookup_insert_ne, lookup_insert_eq in Hq2 by done.
  rewrite lookup_insert_ne, lookup_insert_eq in Hr2 by done.
  injection Hfmt as <- <-.
  change (rng (set_dataset_format "pandas" w)) with (rng w) in Hdf.
  destruct (df_sample dataset bs (rng w)) as [rdf g] eqn:Hs.
  simplify_eq.
  by eexists df, g, query, qs, pairs, _, before, after, t1, s1, t2, s2.
Qed.

(** [dataset[:].sample(n)] returns [n] rows when it returns. *)
Hypothesis df_sample_length :
  ∀ rows n g df g', df_sample rows n g = (Ok df, g') → length df = n.

(** X6.  The table of a run of the evaluation cell that returns has the five
    columns "query", "response (before)", "response (after)",
    "rewards (before)" and "rewards (after)", and no other, each with [bs]
    entries. *)
Theorem evaluate_table_shape dataset w game_data w' :
  evaluate dataset w = (Ok game_data, w') →
  dom game_data =
    {[ "query"; "response (before)"; "response (after)";
       "rewards (before)"; "rewards (after)" ]} ∧
  ∀ key col, game_data !! key = Some col → length col = bs.
Proof using sentiment_pipe_length df_sample_length.
  intros (df & g & query & qs & pairs & w2 & before & after & tb & sb & ta & sa
          & Hdf & Hq & _ & _ & Hb & Ha & Htb & Hsb & Hta & Hsa & ->)
         %evaluate_Ok_sample.
  apply df_sample_length in Hdf.
  apply column_Ok, Forall2_length in Hq.
  apply decode_all_length in Hb, Ha.
  apply concat_texts_lookup in Htb as [Ltb _].
  apply concat_texts_lookup in Hta as [Lta _].
  apply score_texts_Ok in Hsb as (ob & Hob%sentiment_pipe_length
                                     & Fb%Forall2_length).
  apply score_texts_Ok in Hsa as (oa & Hoa%sentiment_pipe_length
                                     & Fa%Forall2_length).
  split.
  - rewrite !dom_insert_L, dom_empty_L. set_solver.
  - intros key col.
    rewrite !lookup_insert_Some, lookup_empty.
    intros [[_ <-]|[_ [[_ <-]|[_ [[_ <-]|[_ [[_ <-]|[_ [[_ <-]|[_ ?]]]]]]]]]];
      rewrite ?length_map; try done; lia.
Qed.

(** *** More on the collator *)

Lemma collator_dom {V} (d0 : gmap string V) rest b :
  collator (d0 :: rest) = Ok b → dom b = dom d0.
Proof.
  unfold collator. intros (items & Hitems & [= <-])%result_bind_Ok.
  apply collator_items in Hitems as [Hfst _].
  rewrite dom_list_to_map_L, Hfst. apply list_to_set_elements_L.
Qed.

(** X8.  Reading a batch row by row gives the records back: row [i] of the
    collated batch is the [i]-th record restricted to the keys of the first
    record, hence the record itself when it has exactly those keys. *)
Theorem collator_rows_round_trip {V} (data : list (gmap string V)) b i d :
  collator data = Ok b →
  data !! i = Some d →
  (∀ key, batch_row b i !! key =
          if decide (key ∈ dom b) then d !! key else None) ∧
  (dom d = dom b → batch_row b i = d).
Proof.
  intros Hb Hd. destruct data as [|d0 rest]; [done|].
  pose proof (collator_lookup _ _ _ Hb) as Hlook.
  assert (∀ key, batch_row b i !! key =
                 if decide (key ∈ dom b) then d !! key else None) as Hrow.
  { intros key. unfold batch_row. rewrite lookup_omap.
    destruct (b !! key) as [vs|] eqn:Hvs; simpl.
    - rewrite decide_True by (apply elem_of_dom; by eexists).
      apply Hlook in Hvs as [_ F%column_Ok].
      destruct (Forall2_lookup_l _ _ _ _ _ F Hd) as (v & -> & ->). done.
    - rewrite decide_False; [done|]. by rewrite not_elem_of_dom. }
  split; [done|]. intros Hdom. apply map_eq. intros key. rewrite Hrow.
  case_decide as Hin; [done|].
  symmetry. apply not_elem_of_dom. by rewrite Hdom.
Qed.

(** X9.  Collating two chunks one after the other is collating them
    separately and appending column by column: when both chunks collate, to
    batches with the same columns, so does their concatenation, and each of
    its columns is the first batch's column followed by the second's. *)
Theorem collator_app {V} (data1 data2 : list (gmap string V)) b1 b2 :
  collator data1 = Ok b1 →
  collator data2 = Ok b2 →
  dom b1 = dom b2 →
  collator (data1 ++ data2) = Ok (map_zip_with app b1 b2).
Proof.
  intros H1 H2 Hdom.
  destruct data1 as [|d1 rest1]; [done|]. destruct data2 as [|d2 rest2]; [done|].
  pose proof (collator_lookup _ _ _ H1) as L1.
  pose proof (collator_lookup _ _ _ H2) as L2.
  pose proof (collator_dom _ _ _ H1) as D1.
  assert (∀ key, key ∈ dom d1 →
            ∃ vs1 vs2, b1 !! key = Some vs1 ∧ b2 !! key = Some vs2 ∧
                       column ((d1 :: rest1) ++ d2 :: rest2) key
                         = Ok (vs1 ++ vs2)) as Hcol.
  { intros key Hkey.
    assert (is_Some (b1 !! key)) as [vs1 Hv1] by (apply elem_of_dom; by rewrite D1).
    assert (is_Some (b2 !! key)) as [vs2 Hv2]
      by (apply elem_of_dom; by rewrite <- Hdom, D1).
    exists vs1, vs2. split; [done|]. split; [done|].
    apply L1 in Hv1 as [_ F1%column_Ok]. apply L2 in Hv2 as [_ F2%column_Ok].
    apply column_Ok. by apply Forall2_app. }
  destruct (collator_total d1 (rest1 ++ d2 :: rest2)) as [b Hb].
  { intros key Hkey. destruct (Hcol key Hkey) as (vs1 & vs2 & _ & _ & ?).
    by exists (vs1 ++ vs2). }
  change (collator (d1 :: rest1 ++ d2 :: rest2) = Ok (map_zip_with app b1 b2)).
  rewrite Hb. f_equal. apply map_eq. intros key.
  rewrite map_lookup_zip_with.
  pose proof (collator_lookup _ _ _ Hb) as L.
  destruct (decide (key ∈ dom d1)) as [Hkey|Hkey].
  - destruct (Hcol key Hkey) as (vs1 & vs2 & -> & -> & Hc). simpl.
    apply L. by split.
  - assert (b1 !! key = None) as -> by (apply not_elem_of_dom; by rewrite D1).
    simpl. destruct (b !! key) as [vs|] eqn:Hvs; [|done].
    by apply L in Hvs as [? _].
Qed.

(** *** Reward extraction *)

(** X10.  [output[1]["score"]] raises in exactly two cases: an IndexError
    when the output has fewer than two entries, a KeyError when its second
    entry has no "score" field. *)
Theorem positive_score_raises output e :
  positive_score output = Raise e ↔
  ((length output < 2)%nat ∧ e = IndexError) ∨
  (∃ entry, output !! 1%nat = Some entry ∧ entry !! "score" = None ∧
            e = KeyError).
Proof.
  unfold positive_score, list_getitem, getitem.
  destruct (output !! 1%nat) as [entry|] eqn:H1; simpl.
  - pose proof (lookup_lt_Some _ _ _ H1).
    destruct (entry !! "score") as [s|] eqn:Hs.
    + split; [done|]. intros [[? _]|(? & [= <-] & ? & _)]; [lia|congruence].
    + split.
      * intros [= <-]. right. by exists entry.
      * by intros [[? _]|(? & _ & _ & ->)]; [lia|].
  - apply lookup_ge_None in H1. split.
    + intros [= <-]. left. split; [lia|done].
    + by intros [[_ ->]|(? & ? & _)].
Qed.

(** *** More on the dataset builder *)

Lemma slice_to_nonneg {A} (n : Z) (xs : list A) :
  0 ≤ n → slice_to n xs = take (Z.to_nat n) xs.
Proof.
  intros Hn. unfold slice_to.
  destruct (Z.ltb_spec n 0) as [?|_]; [lia|].
  destruct (Z.le_gt_cases n (Z.of_nat (length xs))).
  - by rewrite Z.min_l.
  - rewrite Z.min_r, Nat2Z.id, !take_ge by lia. done.
Qed.

Lemma tokenize_Ok input_size sample w sample' w' :
  tokenize input_size sample w = (Ok sample', w') →
  ∃ review ids n g query,
    sample !! "review" = Some review ∧
    tokenizer_encode review = Ok ids ∧
    input_size ≠ [] ∧
    np_random_choice input_size (rng w) = (n, g) ∧
    tokenizer_decode (Vector (slice_to n ids)) = Ok query ∧
    sample' = <["query" := VStr query]>
                (<["input_ids" := VIds (slice_to n ids)]> sample) ∧
    w' = set_rng g w.
Proof.
  unfold tokenize.
  intros (review & w1 & [Hr ->]%lift_inv & (ids & w2 & [He ->]%lift_inv &
    (n & w3 & Hn & (input_ids & w4 & [Hi ->]%lift_inv &
    (query & w5 & [Hq ->]%lift_inv & [[= ->] ->]%ret_inv
    )%bind_Ok)%bind_Ok)%bind_Ok)%bind_Ok)%bind_Ok.
  unfold sample_length in Hn.
  destruct input_size as [|v0 values]; [done|].
  destruct (np_random_choice (v0 :: values) (rng w)) as [n' g] eqn:Hc.
  injection Hn as -> <-.
  unfold getitem in Hr, Hi. rewrite lookup_insert_eq in Hi. injection Hi as ->.
  destruct (sample !! "review") as [review'|] eqn:Hrev; [|done].
  injection Hr as ->.
  by exists review', ids, n, g, query.
Qed.

Lemma filterM_elem {A} (p : A → result bool) l l' x :
  filterM p l = Ok l' → x ∈ l' → x ∈ l.
Proof.
  revert l'. induction l as [|y l IH]; intros l'; simpl.
  - by intros [= <-].
  - intros (b & _ & (rest & Hrest & [= <-])%result_bind_Ok)%result_bind_Ok Hx.
    destruct b.
    + apply elem_of_cons in Hx as [->|Hx]; [by left|].
      right. by eapply IH.
    + right. by eapply IH.
Qed.

Lemma build_dataset_Ok name lo hi w ds w' :
  build_dataset name lo hi w = (Ok ds, w') →
  ∃ corpus renamed kept,
    load_dataset name = Ok corpus ∧
    mapM (rename_column "text" "review") corpus = Ok renamed ∧
    filterM long_review renamed = Ok kept ∧
    for_each (tokenize (LengthSampler lo hi)) kept w = (Ok ds, w').
Proof.
  unfold build_dataset.
  intros (corpus & w1 & [Hload ->]%lift_inv & (ds1 & w2 & [Hren ->]%lift_inv &
    (ds2 & w3 & [Hfil ->]%lift_inv & (ds3 & w4 & Htok & [[= ->] ->]%ret_inv
    )%bind_Ok)%bind_Ok)%bind_Ok)%bind_Ok.
  by exists corpus, ds1, ds2.
Qed.

(** X11.  Every row of a dataset built with a prompt-length range that
    starts at 0 or above holds, under "input_ids", the first [n] token ids of
    its encoded review (all of them when there are fewer), for a length [n]
    drawn from the range, and under "query" the decoding of exactly those
    ids. *)
Theorem build_dataset_prompts name lo hi w ds w' :
  0 ≤ lo →
  build_dataset name lo hi w = (Ok ds, w') →
  Forall (λ r, ∃ review ids n prompt query,
            r !! "review" = Some review ∧
            tokenizer_encode review = Ok ids ∧
            lo ≤ n < hi ∧
            prompt = take (Z.to_nat n) ids ∧
            r !! "input_ids" = Some (VIds prompt) ∧
            tokenizer_decode (Vector prompt) = Ok query ∧
            r !! "query" = Some (VStr query)) ds.
Proof using np_random_choice_elem.
  intros Hlo (corpus & renamed & kept & _ & _ & _ & Htok)%build_dataset_Ok.
  apply for_each_Forall2 in Htok.
  eapply Forall2_Forall_r; [exact Htok|]. apply Forall_forall.
  intros sample _ r (v & v' & Ht).
  apply tokenize_Ok in Ht
    as (review & ids & n & g & query & Hrev & Henc & Hne & Hc & Hdec & -> & _).
  pose proof (np_random_choice_elem _ (rng v) Hne) as Hn.
  rewrite Hc in Hn. simpl in Hn. apply elem_of_LengthSampler in Hn.
  rewrite slice_to_nonneg in Hdec by lia.
  exists review, ids, n, (take (Z.to_nat n) ids), query.
  split; [by rewrite !lookup_insert_ne|].
  split; [done|]. split; [lia|]. split; [done|].
  split.
  { rewrite lookup_insert_ne, lookup_insert_eq by done.
    by rewrite slice_to_nonneg by lia. }
  split; [done|]. by rewrite lookup_insert_eq.
Qed.

(** X12.  Every row of a built dataset comes from a row of the corpus: its
    "review" is that row's "text", it has no "text" field any more, and every
    field other than "text", "review", "input_ids" and "query" (the label, for
    one) is the corpus row's. *)
Theorem build_dataset_keeps_other_fields name lo hi w ds w' :
  build_dataset name lo hi w = (Ok ds, w') →
  ∃ corpus,
    load_dataset name = Ok corpus ∧
    Forall (λ r, ∃ c, c ∈ corpus ∧
              r !! "review" = c !! "text" ∧
              r !! "text" = None ∧
              ∀ key, key ∉ ["text"; "review"; "input_ids"; "query"] →
                     r !! key = c !! key) ds.
Proof.
  intros (corpus & renamed & kept & Hload & Hren & Hfil & Htok)
         %build_dataset_Ok.
  exists corpus. split; [done|].
  apply for_each_Forall2 in Htok. apply mapM_Ok_Forall2 in Hren.
  eapply Forall2_Forall_r; [exact Htok|]. apply Forall_forall.
  intros sample Hs r (v & v' & Ht).
  apply tokenize_Ok in Ht as (_ & ids & n & _ & query & _ & _ & _ & _ & _ & -> & _).
  apply (filterM_elem _ _ _ _ Hfil) in Hs.
  apply list_elem_of_lookup in Hs as [j Hj].
  destruct (Forall2_lookup_r _ _ _ _ _ Hren Hj) as (c & Hc & Hrn).
  exists c. split; [by eapply list_elem_of_lookup_2|].
  unfold rename_column in Hrn.
  destruct (c !! "text") as [t|] eqn:Ht; [|done].
  destruct (c !! "review"); [done|]. injection Hrn as <-.
  split_and!.
  - rewrite !lookup_insert_ne by done. by rewrite lookup_insert_eq.
  - rewrite !lookup_insert_ne by done. by rewrite lookup_delete_eq.
  - intros key Hkey.
    rewrite !not_elem_of_cons in Hkey. destruct Hkey as (? & ? & ? & ? & _).
    rewrite !lookup_insert_ne by done. by rewrite lookup_delete_ne.
Qed.

(** X13.  On a corpus that has rows but no "text" column the builder
    raises a ValueError, from [rename_columns], whatever its other columns
    are, before any random draw: the notebook state is as before the call. *)
Theorem build_dataset_needs_text_column name lo hi w corpus :
  load_dataset name = Ok corpus →
  corpus ≠ [] →
  Forall (λ c, c !! "text" = None) corpus →
  build_dataset name lo hi w = (Raise ValueError, w).
Proof.
  intros Hload Hne Hcols. unfold build_dataset.
  erewrite bind_eq_Ok; [|unfold lift; by rewrite Hload].
  apply bind_eq_Raise. unfold lift. f_equal.
  destruct Hcols as [|c rest Hc _]; [done|].
  simpl. unfold rename_column. by rewrite Hc.
Qed.

Lemma tokenize_empty_range lo hi sample w r w' :
  hi ≤ lo →
  tokenize (LengthSampler lo hi) sample w = (Ok r, w') → False.
Proof.
  intros Hle. unfold tokenize, LengthSampler.
  rewrite seqZ_nil by lia.
  intros (review & w1 & _ & (ids & w2 & _ & (n & w3 & Hn & _
    )%bind_Ok)%bind_Ok)%bind_Ok.
  discriminate Hn.
Qed.

(** X14.  With an empty prompt-length range ([input_max_text_length] not
    above [input_min_text_length]) the builder can only return the empty
    dataset, having drawn nothing: as soon as one review passes the length
    filter, the first draw raises. *)
Theorem build_dataset_empty_range name lo hi w ds w' :
  hi ≤ lo →
  build_dataset name lo hi w = (Ok ds, w') →
  ds = [] ∧ w' = w.
Proof.
  intros Hle (corpus & renamed & kept & _ & _ & _ & Htok)%build_dataset_Ok.
  destruct kept as [|sample kept]; simpl in Htok.
  - by apply ret_inv in Htok as [[= ->] ->].
  - apply bind_Ok in Htok as (r & w1 & Ht & _).
    by apply tokenize_empty_range in Ht.
Qed.

(** *** The training loop as a whole *)

(** X15.  The training loop stops at the first chunk that fails, whether in
    the collator or in the loop body, with that chunk's exception and in the
    state reached then: the chunks before it have had their optimisation
    steps, one each, and none is undone; the chunks after it are not looked
    at. *)
Theorem training_loop_stops_at_first_failure
    pre data rest w units w0 e w1 :
  training_loop pre w = (Ok units, w0) →
  (collator data = Raise e ∧ w1 = w0) ∨
  (∃ b, collator data = Ok b ∧ train_batch b w0 = (Raise e, w1)) →
  training_loop (pre ++ data :: rest) w = (Raise e, w1) ∧
  ∃ calls, steps w0 = steps w ++ calls ∧ length calls = length pre.
Proof.
  intros Hpre Hfail. split.
  - unfold training_loop in *. eapply for_each_app_Raise; [exact Hpre|].
    destruct Hfail as [[Hc ->]|(b & Hc & Hb)].
    + apply bind_eq_Raise. unfold lift. by rewrite Hc.
    + erewrite bind_eq_Ok; [exact Hb|]. unfold lift. by rewrite Hc.
  - clear Hfail. unfold training_loop in Hpre. revert w units Hpre.
    induction pre as [|chunk pre IH]; intros w units; simpl.
    + intros [_ ->]%ret_inv. exists []. by rewrite app_nil_r.
    + intros (u & v & (b & v0 & [Hcol ->]%lift_inv & Hb)%bind_Ok &
              (us & v2 & Hrest & [_ ->]%ret_inv)%bind_Ok)%bind_Ok.
      destruct u. apply train_batch_Ok in Hb as
        (qs & rs & v1 & decoded & queries & texts & outs & rewards &
         _ & _ & _ & _ & _ & _ & _ & Hsteps).
      destruct (IH _ _ Hrest) as (calls & Hcalls & Hlen).
      exists ((qs, rs, rewards) :: calls).
      rewrite Hcalls, Hsteps, <- app_assoc. simpl. by rewrite Hlen.
Qed.

(** *** Generation within a batch *)

Lemma for_each_Forall2_invariant {W A B} (I : W → Prop) (f : A → M W B) l :
  (∀ x w r w', f x w = (r, w') → I w → I w') →
  ∀ w rs w', I w → for_each f l w = (Ok rs, w') →
             Forall2 (λ x y, ∃ w1 w2, I w1 ∧ f x w1 = (Ok y, w2)) l rs.
Proof.
  intros Hf. induction l as [|x l IH]; intros w rs w' Hw; simpl.
  - intros [[= ->] _]%ret_inv. constructor.
  - intros (y & w1 & Hx & (ys & w2 & Hl & [[= ->] _]%ret_inv)%bind_Ok)%bind_Ok.
    constructor; [by exists w, w1|].
    eapply IH; [|exact Hl]. by eapply Hf.
Qed.

(** X16.  In a run of the loop body that reaches its end, every response of
    the batch is cut from an output of [generate] under the policy weights
    the batch started with; the weights change once, after all responses are
    scored, to those [ppo_trainer.step] returns for the batch's queries,
    responses and rewards. *)
Theorem train_batch_generates_on_policy b w w' :
  train_batch b w = (Ok tt, w') →
  ∃ query_tensors response_tensors rewards stats g0 g1,
    steps w' = steps w ++ [(query_tensors, response_tensors, rewards)] ∧
    Forall2 (λ q r, ∃ L g row g',
               generate (model w) q L g = (Ok row, g') ∧
               r = Vector (slice_from (- L) row))
            query_tensors response_tensors ∧
    ppo_step query_tensors response_tensors rewards (model w) g0
      = (Ok stats, model w', g1) ∧
    rng w' = g1.
Proof.
  intros (qs & rs & w1 & decoded & queries & texts & outs & rewards & stats &
          θ & g & _ & Hrs & _ & _ & _ & _ & _ & Hstep & ->)%train_batch_Ok_state.
  pose proof (respond_loop_keeps _ _ _ _ Hrs) as (Hs & _ & Hm & _).
  exists qs, rs, rewards, stats, (rng w1), g. simpl.
  rewrite Hs. rewrite Hm in Hstep. split_and!; try done.
  apply (for_each_Forall2_invariant (λ v, model v = model w)) in Hrs; [|..|done].
  - eapply Forall2_impl; [exact Hrs|].
    intros q r (v1 & v2 & Hv & (L & g2 & row & g' & _ & Hg & _ & -> & _)%respond_Ok).
    rewrite Hv in Hg. by exists L, g2, row, g'.
  - intros x v r' v' Hx Hv. apply respond_keeps in Hx as (_ & _ & -> & _). done.
Qed.

End Notebook.

(** ** Runs on the small instance *)

Lemma Toy_choice_elem (values : list Z) (g : nat) :
  values ≠ [] → (Toy.choice values g).1 ∈ values.
Proof.
  intros Hne. unfold Toy.choice. simpl. apply list_elem_of_In, nth_In.
  apply Nat.mod_upper_bound. by destruct values.
Qed.

Lemma Toy_pipe_length (texts : list value) outputs :
  Toy.pipe texts = Ok outputs → length outputs = length texts.
Proof. intros [= <-]. apply length_map. Qed.

Lemma Toy_example_dom ids : dom (Toy.example ids) = {[ "input_ids"; "query" ]}.
Proof. unfold Toy.example. rewrite dom_insert_L, dom_singleton_L. done. Qed.

(** A run that is known to return has a result to reason about. *)
Lemma run_returns {W A} (run : result A * W) :
  is_Ok run.1 = true → ∃ a w', run = (Ok a, w').
Proof. destruct run as [[a|e] w']; [by exists a, w'|done]. Qed.

(** The collator on a chunk of two rows. *)
Lemma collator_reshapes_records_witness :
  head Toy.chunk = Some (Toy.example [104; 105]) ∧
  collator Toy.chunk = Ok Toy.batch ∧
  dom Toy.batch = dom (Toy.example [104; 105]).
Proof.
  split; [reflexivity|].
  destruct (collator_reshapes_records Toy.chunk (Toy.example [104; 105]))
    as (b & Hb & Hdom & _).
  - reflexivity.
  - intros d Hd. rewrite Toy_example_dom.
    apply elem_of_cons in Hd as [->|Hd]; [by rewrite Toy_example_dom|].
    apply elem_of_cons in Hd as [->|Hd]; [by rewrite Toy_example_dom|].
    by apply elem_of_nil in Hd.
  - assert (collator Toy.chunk = Ok Toy.batch) as Hrun
      by (vm_compute; reflexivity).
    rewrite Hrun in Hb. injection Hb as <-. by split.
Defined.

(** The collator on a chunk whose second row has no ["input_ids"]. *)
Lemma collator_missing_key_raises_witness :
  collator [Toy.example [104; 105]; {[ "query" := VStr "x" ]}] = Raise KeyError.
Proof.
  apply (collator_missing_key_raises _ (Toy.example [104; 105])
           {[ "query" := VStr "x" ]} "input_ids").
  - reflexivity.
  - apply elem_of_dom. by eexists.
  - apply elem_of_cons. right. apply elem_of_cons. by left.
  - reflexivity.
Defined.

(** C2, as first stated, fails: the policy emits the end-of-sequence token
    at once, the generated output (the two-token query and that token) is
    shorter than the drawn length 4, and the slice keeps three token ids. *)
Lemma respond_short_generation :
  (Toy.choice (LengthSampler output_min_length output_max_length)
     (rng Toy.world0)).1 = 4 ∧
  (respond Toy.choice Toy.generate (VIds [104; 105]) Toy.world0).1
    = Ok (Vector [104; 105; 46]) ∧
  numel (Vector [104; 105; 46]) ≠ Z.to_nat 4.
Proof.
  split; [vm_compute; reflexivity|]. split; [vm_compute; reflexivity|].
  discriminate.
Qed.

(** With a policy that does not stop early the response has the drawn
    length. *)
Lemma respond_trims_to_drawn_length_witness :
  ∃ r w',
    respond Toy.choice Toy.generate (VIds [104; 105]) Toy.world_fluent
      = (Ok r, w') ∧
    ∃ L row, 4 ≤ L < 16 ∧ r = Vector (slice_from (- L) row) ∧ numel r = Z.to_nat L.
Proof.
  destruct (run_returns (respond Toy.choice Toy.generate (VIds [104; 105])
                           Toy.world_fluent))
    as (r & w' & E); [vm_compute; reflexivity|].
  exists r, w'. split; [exact E|].
  destruct (respond_trims_to_drawn_length Toy.choice Toy.generate
              Toy_choice_elem _ _ _ _ E)
    as (L & g & row & g' & Hc & HL & Hg & Hr & Hn & Hiff).
  exists L, row. split; [done|]. split; [done|].
  apply Hiff. vm_compute in Hc. injection Hc as <- <-.
  vm_compute in Hg. injection Hg as <- _. vm_compute. lia.
Defined.

(** C10, as first stated, fails: with the drawn length 4 the reference
    model's response has four token ids and the policy's, cut short by the
    end-of-sequence token, has three. *)
Lemma evaluate_example_unequal_lengths :
  (evaluate_example Toy.choice Toy.generate [VIds [104; 105]] 0 Toy.world0).1
    = Ok (Vector [97; 97; 97; 97], Vector [104; 105; 46]) ∧
  numel (Vector [97; 97; 97; 97]) ≠ numel (Vector [104; 105; 46]).
Proof. split; [vm_compute; reflexivity|]. discriminate. Qed.

(** With two models that do not stop early the paired responses have the
    same length. *)
Lemma evaluate_example_shares_gen_len_witness :
  ∃ r_ref r w',
    evaluate_example Toy.choice Toy.generate [VIds [104; 105]] 0 Toy.world_fluent
      = (Ok (r_ref, r), w') ∧
    numel r_ref = numel r.
Proof.
  destruct (run_returns (evaluate_example Toy.choice Toy.generate
                           [VIds [104; 105]] 0 Toy.world_fluent))
    as ([r_ref r] & w' & E); [vm_compute; reflexivity|].
  exists r_ref, r, w'. split; [exact E|].
  destruct (evaluate_example_shares_gen_len Toy.choice Toy.generate
              Toy_choice_elem _ _ _ _ _ _ E)
    as (q & L & g & row_ref & g1 & row & g2 & Hq & Hc & HL & Hgr & Hgp &
        _ & _ & _ & _ & Heq).
  injection Hq as <-. vm_compute in Hc. injection Hc as <- <-.
  vm_compute in Hgr. injection Hgr as <- <-.
  vm_compute in Hgp. injection Hgp as <- _.
  destruct Heq as [-> ->]; [vm_compute; lia..|done].
Defined.

(** The loop body on the batch collated from [Toy.chunk]. *)
Lemma train_batch_index_aligned_witness :
  collator Toy.chunk = Ok Toy.batch ∧
  ∃ w',
    train_batch Toy.choice Toy.decode Toy.generate Toy.pipe Toy.step
      Toy.batch Toy.world0 = (Ok tt, w') ∧
    ∃ queries responses rewards,
      steps w' = [(queries, responses, rewards)] ∧
      length queries = 2%nat ∧ length responses = 2%nat ∧
      length rewards = 2%nat.
Proof.
  assert (collator Toy.chunk = Ok Toy.batch) as Hc by (vm_compute; reflexivity).
  split; [done|].
  destruct (run_returns (train_batch Toy.choice Toy.decode Toy.generate
                           Toy.pipe Toy.step Toy.batch Toy.world0))
    as ([] & w' & E); [vm_compute; reflexivity|].
  exists w'. split; [exact E|].
  destruct (train_batch_index_aligned Toy.choice Toy.decode Toy.generate
              Toy.pipe Toy.step Toy_pipe_length _ _ _ _ Hc E)
    as (qs & rs & texts & outs & rewards & Hs & _ & L1 & L2 & L3 & L4 & _).
  clear E Hc. exists qs, rs, rewards. simpl in *. split; [exact Hs|]. lia.
Defined.

(** The rewards of the same run. *)
Lemma reward_is_score_at_index_1_witness :
  ∃ w',
    train_batch Toy.choice Toy.decode Toy.generate Toy.pipe Toy.step
      Toy.batch Toy.world0 = (Ok tt, w') ∧
    ∃ queries responses texts pipe_outputs rewards,
      steps w' = [(queries, responses, rewards)] ∧
      Toy.pipe texts = Ok pipe_outputs ∧
      Forall2 score_at_index_1 pipe_outputs rewards.
Proof.
  destruct (run_returns (train_batch Toy.choice Toy.decode Toy.generate
                           Toy.pipe Toy.step Toy.batch Toy.world0))
    as ([] & w' & E); [vm_compute; reflexivity|].
  exists w'. split; [exact E|].
  exact (proj1 (proj2 (reward_is_score_at_index_1 Toy.choice Toy.decode
                         Toy.generate Toy.pipe Toy.step Toy.sample)) _ _ _ E).
Defined.

(** C5, as first stated, fails: the corpus holds a text of exactly 200
    characters, which is not shorter than 200, and the built dataset leaves it
    out; the reviews kept have 250, 300 and 220 characters. *)
Lemma build_dataset_drops_length_200 :
  (column Toy.corpus "text" ≫= mapM py_len)
    = Ok [50; 250; 300; 10; 220; 200] ∧
  ((build_dataset Toy.load Toy.choice Toy.encode Toy.decode "imdb" 2 8
      Toy.world0).1 ≫= λ ds, column ds "review" ≫= mapM py_len)
    = Ok [250; 300; 220] ∧
  ¬ (200 < 200) ∧
  200 ∉ [250; 300; 220].
Proof.
  split; [vm_compute; reflexivity|]. split; [vm_compute; reflexivity|].
  split; [lia|]. intros H.
  repeat (apply elem_of_cons in H as [H|H]; [discriminate H|]).
  by apply elem_of_nil in H.
Qed.

(** The dataset built from [Toy.corpus]. *)
Lemma build_dataset_keeps_long_reviews_witness :
  ∃ ds w' reviews,
    build_dataset Toy.load Toy.choice Toy.encode Toy.decode "imdb" 2 8
      Toy.world0 = (Ok ds, w') ∧
    column ds "review" = Ok reviews ∧
    ∀ t, t ∈ reviews → ∃ n, py_len t = Ok n ∧ 200 < n.
Proof.
  destruct (run_returns (build_dataset Toy.load Toy.choice Toy.encode
                           Toy.decode "imdb" 2 8 Toy.world0))
    as (ds & w' & E); [vm_compute; reflexivity|].
  destruct (build_dataset_keeps_long_reviews Toy.load Toy.choice Toy.encode
              Toy.decode _ _ _ _ _ _ E)
    as (corpus & texts & reviews & _ & _ & Hr & _ & _ & Hlong).
  exists ds, w', reviews. exact (conj E (conj Hr Hlong)).
Defined.

(** The evaluation cell on sixteen rows. *)
Lemma evaluation_texts_share_prompts_witness :
  ∃ game_data w' texts_before texts_after,
    evaluate Toy.choice Toy.decode Toy.generate Toy.pipe Toy.sample
      Toy.dataset Toy.world0 = (Ok game_data, w') ∧
    length texts_before = bs ∧
    length texts_after = bs ∧
    ∀ i, (i < bs)%nat →
      ∃ prompt response_before response_after,
        texts_before !! i = Some (VStr (prompt +:+ response_before)) ∧
        texts_after !! i = Some (VStr (prompt +:+ response_after)).
Proof.
  destruct (run_returns (evaluate Toy.choice Toy.decode Toy.generate Toy.pipe
                           Toy.sample Toy.dataset Toy.world0))
    as (gd & w' & E); [vm_compute; reflexivity|].
  destruct (evaluation_texts_share_prompts Toy.choice Toy.decode Toy.generate
              Toy.pipe Toy.sample _ _ _ _ E)
    as (query & before & after & tb & ta & sb & sa &
        _ & _ & _ & _ & _ & _ & _ & _ & _ & Lb & La & Hi).
  exists gd, w', tb, ta. split; [exact E|]. clear E.
  split; [exact Lb|]. split; [exact La|].
  intros i Hlt. destruct (Hi i Hlt) as (prompt & rb & ra & _ & _ & _ & Hb & Ha).
  exists prompt, rb, ra. exact (conj Hb Ha).
Defined.

(** On [Toy.bad_batch] the second query makes [generate] raise a
    TypeError: the batch and the loop end with it, no step is made. *)
Lemma exception_aborts_batch_witness :
  train_batch Toy.choice Toy.decode Toy.generate Toy.pipe Toy.step
    Toy.bad_batch Toy.world0
    = (Raise TypeError, Toy.world_aborted) ∧
  steps Toy.world_aborted = steps Toy.world0 ∧
  model Toy.world_aborted = model Toy.world0 ∧
  training_loop Toy.choice Toy.decode Toy.generate Toy.pipe Toy.step
    [Toy.bad_chunk; Toy.chunk] Toy.world0
    = (Raise TypeError, Toy.world_aborted).
Proof.
  destruct (exception_aborts_batch Toy.choice Toy.decode Toy.generate Toy.pipe
              Toy.step Toy.bad_batch Toy.world0 [VIds [104; 105]; VStr "oops"]
              TypeError Toy.world_aborted)
    as (Hb & Hs & Hm & Hloop).
  - vm_compute; reflexivity.
  - left.
    exists [VIds [104; 105]], (VStr "oops"), [], [Vector [104; 105; 46]],
           Toy.world_mid, 6, 3%nat, 3%nat.
    split; [reflexivity|]. split; [vm_compute; reflexivity|].
    split; [vm_compute; reflexivity|]. split; vm_compute; reflexivity.
  - split; [exact Hb|]. split; [exact Hs|]. split; [exact Hm|].
    apply Hloop. vm_compute; reflexivity.
Defined.

(** *** Runs for the further properties *)

Lemma Toy_sample_length (rows : list (gmap string value)) n g df g' :
  Toy.sample rows n g = (Ok df, g') → length df = n.
Proof.
  unfold Toy.sample. destruct (Nat.ltb_spec (length rows) n); [done|].
  intros [= <- _]. rewrite length_take. lia.
Qed.

(** On [Toy.bad_batch] the loop body raises before the step. *)
Lemma failed_batch_logs_nothing_witness :
  train_batch Toy.choice Toy.decode Toy.generate Toy.pipe Toy.step
    Toy.bad_batch Toy.world0 = (Raise TypeError, Toy.world_aborted) ∧
  logged Toy.world_aborted = logged Toy.world0 ∧
  ref_model Toy.world_aborted = ref_model Toy.world0.
Proof.
  assert (train_batch Toy.choice Toy.decode Toy.generate Toy.pipe Toy.step
            Toy.bad_batch Toy.world0 = (Raise TypeError, Toy.world_aborted))
    as E by (vm_compute; reflexivity).
  destruct (failed_batch_logs_nothing Toy.choice Toy.decode Toy.generate
              Toy.pipe Toy.step _ _ _ _ E) as (Hl & Hr & _).
  exact (conj E (conj Hl Hr)).
Defined.

(** The loop body on [Toy.batch], from the fresh notebook. *)
Lemma train_batch_logs_responses_witness :
  ∃ w',
    train_batch Toy.choice Toy.decode Toy.generate Toy.pipe Toy.step
      Toy.batch Toy.world0 = (Ok tt, w') ∧
    ∃ stats decoded rewards,
      logged w' = [(stats, <["response" := map VStr decoded]> Toy.batch,
                    rewards)] ∧
      length decoded = 2%nat.
Proof.
  destruct (run_returns (train_batch Toy.choice Toy.decode Toy.generate
                           Toy.pipe Toy.step Toy.batch Toy.world0))
    as ([] & w' & E); [vm_compute; reflexivity|].
  exists w'. split; [exact E|].
  destruct (train_batch_logs_responses Toy.choice Toy.decode Toy.generate
              Toy.pipe Toy.step _ _ _ E)
    as (qs & rs & rewards & stats & decoded & _ & Hlog & Hqs & _ & Hlen).
  clear E. exists stats, decoded, rewards. split; [exact Hlog|].
  rewrite Hlen. vm_compute in Hqs. by injection Hqs as <-.
Defined.


(** Two chunks trained on in a row. *)
Lemma training_loop_steps_once_per_chunk_witness :
  ∃ units w' calls logs,
    training_loop Toy.choice Toy.decode Toy.generate Toy.pipe Toy.step
      [Toy.chunk; Toy.chunk] Toy.world0 = (Ok units, w') ∧
    steps w' = calls ∧ logged w' = logs ∧
    length calls = 2%nat ∧ length logs = 2%nat.
Proof.
  destruct (run_returns (training_loop Toy.choice Toy.decode Toy.generate
                           Toy.pipe Toy.step [Toy.chunk; Toy.chunk]
                           Toy.world0))
    as (units & w' & E); [vm_compute; reflexivity|].
  destruct (training_loop_steps_once_per_chunk Toy.choice Toy.decode
              Toy.generate Toy.pipe Toy.step _ _ _ _ E)
    as (calls & logs & Hs & Hl & F1%Forall2_length & F2%Forall2_length).
  exists units, w', calls, logs. split; [exact E|]. clear E.
  split; [exact Hs|]. split; [exact Hl|]. simpl in F1. split; lia.
Defined.

(** The evaluation cell on sixteen rows, after one batch of training: the
    dataset goes from the "torch" to the "pandas" format, and all but this and
    the generator is as it was. *)
Lemma evaluate_reads_only_witness :
  dataset_format Toy.world1 = "torch" ∧
  ∃ game_data w',
    evaluate Toy.choice Toy.decode Toy.generate Toy.pipe Toy.sample
      Toy.dataset Toy.world1 = (Ok game_data, w') ∧
    steps w' = steps Toy.world1 ∧ logged w' = logged Toy.world1 ∧
    model w' = 1%nat ∧ ref_model w' = 20%nat ∧
    max_new_tokens w' = Some 6 ∧
    dataset_format w' = "pandas".
Proof.
  destruct (run_returns (evaluate Toy.choice Toy.decode Toy.generate Toy.pipe
                           Toy.sample Toy.dataset Toy.world1))
    as (gd & w' & E); [vm_compute; reflexivity|].
  split; [reflexivity|].
  exists gd, w'. split; [exact E|].
  exact (evaluate_reads_only Toy.choice Toy.decode Toy.generate Toy.pipe
           Toy.sample _ _ _ _ E).
Defined.

Lemma evaluate_table_shape_witness :
  ∃ game_data w',
    evaluate Toy.choice Toy.decode Toy.generate Toy.pipe Toy.sample
      Toy.dataset Toy.world0 = (Ok game_data, w') ∧
    ∃ rewards,
      game_data !! "rewards (after)" = Some rewards ∧
      length rewards = bs.
Proof.
  destruct (run_returns (evaluate Toy.choice Toy.decode Toy.generate Toy.pipe
                           Toy.sample Toy.dataset Toy.world0))
    as (gd & w' & E); [vm_compute; reflexivity|].
  destruct (evaluate_table_shape Toy.choice Toy.decode Toy.generate Toy.pipe
              Toy.sample Toy_pipe_length Toy_sample_length _ _ _ _ E)
    as [Hdom Hlen].
  exists gd, w'. split; [exact E|]. clear E.
  assert (is_Some (gd !! "rewards (after)")) as [rewards Hr].
  { apply elem_of_dom. rewrite Hdom. set_solver. }
  exists rewards. split; [exact Hr|exact (Hlen _ _ Hr)].
Defined.

(** Row 1 of [Toy.batch] is the second row of [Toy.chunk]. *)
Lemma collator_rows_round_trip_witness :
  collator Toy.chunk = Ok Toy.batch ∧
  batch_row Toy.batch 1 = Toy.example [104; 105; 106].
Proof.
  assert (collator Toy.chunk = Ok Toy.batch) as Hc by (vm_compute; reflexivity).
  split; [exact Hc|].
  apply (collator_rows_round_trip Toy.chunk Toy.batch 1
           (Toy.example [104; 105; 106]) Hc eq_refl).
  rewrite Toy_example_dom. unfold Toy.batch.
  by rewrite dom_insert_L, dom_singleton_L.
Defined.

(** [Toy.chunk] collated twice over. *)
Lemma collator_app_witness :
  collator (Toy.chunk ++ Toy.chunk)
    = Ok (map_zip_with app Toy.batch Toy.batch).
Proof.
  apply collator_app; [vm_compute; reflexivity..|reflexivity].
Defined.

(** The dataset built from [Toy.corpus], with prompts of 2 to 7 tokens. *)
Lemma build_dataset_prompts_witness :
  ∃ ds w',
    build_dataset Toy.load Toy.choice Toy.encode Toy.decode "imdb" 2 8
      Toy.world0 = (Ok ds, w') ∧
    Forall (λ r, ∃ prompt n,
              2 ≤ n < 8 ∧ r !! "input_ids" = Some (VIds prompt) ∧
              (length prompt ≤ Z.to_nat n)%nat) ds.
Proof.
  destruct (run_returns (build_dataset Toy.load Toy.choice Toy.encode
                           Toy.decode "imdb" 2 8 Toy.world0))
    as (ds & w' & E); [vm_compute; reflexivity|].
  exists ds, w'. split; [exact E|].
  assert (0 ≤ 2) as Hlo by lia.
  pose proof (build_dataset_prompts Toy.load Toy.choice Toy.encode Toy.decode
                Toy_choice_elem _ _ _ _ _ _ Hlo E) as F.
  clear E. eapply Forall_impl; [exact F|].
  intros r (review & ids & n & prompt & query & _ & _ & Hn & -> & Hi & _).
  exists (take (Z.to_nat n) ids), n. split; [exact Hn|]. split; [exact Hi|].
  rewrite length_take. lia.
Defined.

Lemma build_dataset_keeps_other_fields_witness :
  ∃ ds w',
    build_dataset Toy.load Toy.choice Toy.encode Toy.decode "imdb" 2 8
      Toy.world0 = (Ok ds, w') ∧
    Forall (λ r, r !! "label" = Some (VInt 1) ∧ r !! "text" = None) ds.
Proof.
  destruct (run_returns (build_dataset Toy.load Toy.choice Toy.encode
                           Toy.decode "imdb" 2 8 Toy.world0))
    as (ds & w' & E); [vm_compute; reflexivity|].
  exists ds, w'. split; [exact E|].
  destruct (build_dataset_keeps_other_fields Toy.load Toy.choice Toy.encode
              Toy.decode _ _ _ _ _ _ E) as (corpus & Hload & F).
  clear E. unfold Toy.load in Hload. rewrite decide_True in Hload by done.
  injection Hload as <-.
  eapply Forall_impl; [exact F|].
  intros r (c & Hc & _ & Ht & Hkeep). split; [|exact Ht].
  rewrite Hkeep by (rewrite !not_elem_of_cons; split_and!; try done;
                    apply not_elem_of_nil).
  unfold Toy.corpus in Hc.
  repeat (apply elem_of_cons in Hc as [->|Hc]; [reflexivity|]).
  by apply elem_of_nil in Hc.
Defined.

(** A corpus whose rows have no "text" column. *)
Lemma build_dataset_needs_text_column_witness :
  build_dataset Toy.load_untitled Toy.choice Toy.encode Toy.decode "imdb" 2 8
    Toy.world0 = (Raise ValueError, Toy.world0).
Proof.
  apply (build_dataset_needs_text_column Toy.load_untitled Toy.choice
           Toy.encode Toy.decode "imdb" 2 8 Toy.world0
           [{[ "label" := VInt 1 ]}]).
  - reflexivity.
  - discriminate.
  - constructor; [reflexivity|constructor].
Defined.

(** A corpus of short reviews, built with the empty range from 8 to 8. *)
Lemma build_dataset_empty_range_witness :
  ∃ ds w',
    build_dataset Toy.load_short Toy.choice Toy.encode Toy.decode "imdb" 8 8
      Toy.world0 = (Ok ds, w') ∧
    ds = [] ∧ w' = Toy.world0.
Proof.
  destruct (run_returns (build_dataset Toy.load_short Toy.choice Toy.encode
                           Toy.decode "imdb" 8 8 Toy.world0))
    as (ds & w' & E); [vm_compute; reflexivity|].
  exists ds, w'. split; [exact E|].
  assert (8 ≤ 8) as Hle by lia.
  exact (build_dataset_empty_range Toy.load_short Toy.choice Toy.encode
           Toy.decode _ _ _ _ _ _ Hle E).
Defined.

(** Training on [Toy.chunk], then [Toy.bad_chunk], then [Toy.chunk] again
    stops at the second chunk with the first chunk's step made. *)
Lemma training_loop_stops_at_first_failure_witness :
  training_loop Toy.choice Toy.decode Toy.generate Toy.pipe Toy.step
    ([Toy.chunk] ++ Toy.bad_chunk :: [Toy.chunk]) Toy.world0
    = (Raise TypeError, Toy.world_stopped) ∧
  ∃ calls, steps Toy.world1 = steps Toy.world0 ++ calls ∧
           length calls = length [Toy.chunk].
Proof.
  apply (training_loop_stops_at_first_failure Toy.choice Toy.decode
           Toy.generate Toy.pipe Toy.step [Toy.chunk] Toy.bad_chunk
           [Toy.chunk] Toy.world0 [tt] Toy.world1 TypeError Toy.world_stopped).
  - vm_compute; reflexivity.
  - right. exists Toy.bad_batch. split; vm_compute; reflexivity.
Defined.

(** The responses of [Toy.batch] come from the policy of the fresh
    notebook, which is replaced after the step. *)
Lemma train_batch_generates_on_policy_witness :
  ∃ w',
    train_batch Toy.choice Toy.decode Toy.generate Toy.pipe Toy.step
      Toy.batch Toy.world0 = (Ok tt, w') ∧
    ∃ queries responses,
      Forall2 (λ q r, ∃ L g row g',
                 Toy.generate 0%nat q L g = (Ok row, g') ∧
                 r = Vector (slice_from (- L) row))
              queries responses ∧
      model w' = 1%nat.
Proof.
  destruct (run_returns (train_batch Toy.choice Toy.decode Toy.generate
                           Toy.pipe Toy.step Toy.batch Toy.world0))
    as ([] & w' & E); [vm_compute; reflexivity|].
  exists w'. split; [exact E|].
  destruct (train_batch_generates_on_policy Toy.choice Toy.decode Toy.generate
              Toy.pipe Toy.step _ _ _ E)
    as (qs & rs & rewards & stats & g0 & g1 & _ & F & Hstep & _).
  clear E. exists qs, rs. split; [exact F|].
  unfold Toy.step in Hstep. by injection Hstep as _ <-.
Defined.
